(** * Avient SDS scraper: a shallow embedding of the Go program

    The repository holds several near-identical copies of one scraper
    ([src/main.go] and the variants kept next to it).  Go strings are byte
    sequences, so they are embedded as [string] (a list of 8-bit [ascii]).
    Standard-library routines the program calls are modelled next to the
    program's own functions; those whose behaviour is too large to model
    (URL parsing, the HTML parser, path joining) are fields of a record
    [Lib] that every definition takes as a parameter. *)

From Stdlib Require Import ZArith NArith Ascii String List Bool Lia.
From stdpp Require Import base option list strings pretty gmap.

Local Open Scope string_scope.
Local Open Scope list_scope.

(** ** Results of fallible calls *)

(** Go's [(value, error)] pair when the value is unusable on error. *)
Inductive result (A : Type) : Type :=
| Ok (a : A)
| Err (err : string).
Arguments Ok {A} a.
Arguments Err {A} err.

(** A value together with the lines it sent to the [log] package. *)
Definition Logged (A : Type) : Type := (A * list string)%type.

Definition value {A} (x : Logged A) : A := fst x.
Definition logs {A} (x : Logged A) : list string := snd x.

(** ** Bytes *)

Definition byte_in (lo hi c : ascii) : bool :=
  ((lo <=? c)%char && (c <=? hi)%char)%bool.

Definition is_upper (c : ascii) : bool := byte_in "A" "Z" c.
Definition is_lower (c : ascii) : bool := byte_in "a" "z" c.
Definition is_digit (c : ascii) : bool := byte_in "0" "9" c.

(** [utf8.RuneSelf]: bytes below 0x80 are single-byte runes. *)
Definition is_ascii (c : ascii) : bool := (N_of_ascii c <? 128)%N.

Fixpoint all_bytes (p : ascii -> bool) (s : string) : bool :=
  match s with
  | EmptyString => true
  | String c s' => p c && all_bytes p s'
  end.

(** ** Package strings *)

Module strings.

(** [s[n:]], with the whole string dropped when [n] exceeds its length. *)
Fixpoint drop (n : nat) (s : string) : string :=
  match n, s with
  | O, _ => s
  | S n', String _ s' => drop n' s'
  | S _, EmptyString => EmptyString
  end.

(** [strings.HasPrefix]. *)
Definition HasPrefix (s prefix : string) : bool :=
  (String.length prefix <=? String.length s)%nat
  && String.eqb (substring 0 (String.length prefix) s) prefix.

(** [strings.HasSuffix]:
    [len(s) >= len(suffix) && s[len(s)-len(suffix):] == suffix]. *)
Definition HasSuffix (s suffix : string) : bool :=
  (String.length suffix <=? String.length s)%nat
  && String.eqb (drop (String.length s - String.length suffix) s) suffix.

(** [strings.Contains]: some tail of [s] starts with [substr]. *)
Fixpoint Contains (s substr : string) : bool :=
  HasPrefix s substr
  || match s with
     | EmptyString => false
     | String _ s' => Contains s' substr
     end.

Definition lower_byte (c : ascii) : ascii :=
  if is_upper c then ascii_of_N (N_of_ascii c + 32) else c.

(** [strings.ToLower] on its ASCII path: bytes ['A'..'Z'] are shifted,
    every other byte is kept.  The program lowers either a sanitised
    name, which is ASCII, or a string it then tests for the ASCII suffix
    [.pdf]; no rune outside ASCII lowers to one of those four bytes. *)
Fixpoint ToLower (s : string) : string :=
  match s with
  | EmptyString => EmptyString
  | String c s' => String (lower_byte c) (ToLower s')
  end.

Fixpoint has_byte (cutset : string) (c : ascii) : bool :=
  match cutset with
  | EmptyString => false
  | String d cutset' => Ascii.eqb d c || has_byte cutset' c
  end.

(** [strings.TrimLeft] for an ASCII cutset:
    [for len(s) > 0 && in(cutset, s[0]) { s = s[1:] }]. *)
Fixpoint TrimLeft (s cutset : string) : string :=
  match s with
  | EmptyString => EmptyString
  | String c s' => if has_byte cutset c then TrimLeft s' cutset else s
  end.

(** [strings.TrimRight] for an ASCII cutset:
    [for len(s) > 0 && in(cutset, s[len(s)-1]) { s = s[:len(s)-1] }]. *)
Fixpoint TrimRight (s cutset : string) : string :=
  match s with
  | EmptyString => EmptyString
  | String c s' =>
      match TrimRight s' cutset with
      | EmptyString => if has_byte cutset c then EmptyString else String c EmptyString
      | t => String c t
      end
  end.

(** [strings.Trim]: both ends. *)
Definition Trim (s cutset : string) : string :=
  TrimLeft (TrimRight s cutset) cutset.

End strings.

(** ** Package path *)

Module path.

(** Index one past the last ['/'] of [s], if any
    ([strings.LastIndexByte(s, '/') + 1]). *)
Fixpoint after_last_slash (s : string) : option string :=
  match s with
  | EmptyString => None
  | String c s' =>
      match after_last_slash s' with
      | Some t => Some t
      | None => if Ascii.eqb c "/" then Some s' else None
      end
  end.

(** [path.Base]: the last element of a slash-separated path; trailing
    slashes are removed first; ["."] for the empty path and ["/"] for a
    path of slashes only. *)
Definition Base (p : string) : string :=
  if String.eqb p "" then "."
  else
    let p := strings.TrimRight p "/" in
    let p := match after_last_slash p with
             | Some t => t
             | None => p
             end in
    if String.eqb p "" then "/" else p.

End path.

(** ** Package net/url: query unescaping *)

Module url.

Record URL : Type := { Path : string }.

Definition ishex (c : ascii) : bool :=
  is_digit c || byte_in "a" "f" c || byte_in "A" "F" c.

Definition unhex (c : ascii) : N :=
  if is_digit c then N_of_ascii c - N_of_ascii "0"
  else if byte_in "a" "f" c then N_of_ascii c - N_of_ascii "a" + 10
  else if byte_in "A" "F" c then N_of_ascii c - N_of_ascii "A" + 10
  else 0.

(** First pass of [unescape]: the first malformed [%] escape, if any
    (at most three bytes of it, as [EscapeError] carries). *)
Fixpoint unescape_check (s : string) : option string :=
  match s with
  | EmptyString => None
  | String "%" (String h1 (String h2 s')) =>
      if ishex h1 && ishex h2 then unescape_check s'
      else Some (String "%" (String h1 (String h2 EmptyString)))
  | String "%" _ => Some s
  | String _ s' => unescape_check s'
  end.

(** Second pass of [unescape] in query-component mode: [%XX] becomes
    the byte [XX] and [+] becomes a space. *)
Fixpoint unescape_write (s : string) : string :=
  match s with
  | EmptyString => EmptyString
  | String "%" (String h1 (String h2 s')) =>
      String (ascii_of_N (unhex h1 * 16 + unhex h2)) (unescape_write s')
  | String "+" s' => String " " (unescape_write s')
  | String c s' => String c (unescape_write s')
  end.

(** [url.QueryUnescape]: returns [("", err)] on a malformed escape. *)
Definition QueryUnescape (s : string) : string * option string :=
  match unescape_check s with
  | Some bad => ("", Some ("invalid URL escape " +:+ bad))
  | None => (unescape_write s, None)
  end.

End url.

(** ** Package unicode/utf8 *)

Module utf8.

Definition RuneError : N := 0xFFFD.

(** The table [first] with [acceptRanges]: for a leading byte of a
    multi-byte sequence, the sequence length and the range allowed for
    the second byte; [None] for a byte that cannot lead one. *)
Definition first (s0 : N) : option (nat * N * N) :=
  if (s0 <? 0xC2)%N then None
  else if (s0 <=? 0xDF)%N then Some (2%nat, 0x80%N, 0xBF%N)
  else if (s0 =? 0xE0)%N then Some (3%nat, 0xA0%N, 0xBF%N)
  else if (s0 =? 0xED)%N then Some (3%nat, 0x80%N, 0x9F%N)
  else if (s0 <=? 0xEF)%N then Some (3%nat, 0x80%N, 0xBF%N)
  else if (s0 =? 0xF0)%N then Some (4%nat, 0x90%N, 0xBF%N)
  else if (s0 <=? 0xF3)%N then Some (4%nat, 0x80%N, 0xBF%N)
  else if (s0 =? 0xF4)%N then Some (4%nat, 0x80%N, 0x8F%N)
  else None.

Definition outside (lo hi b : N) : bool := ((b <? lo) || (hi <? b))%N.

(** [utf8.DecodeRuneInString]: the first rune of [s] and its width in
    bytes; [(RuneError, 1)] for a byte that starts no valid encoding
    and [(RuneError, 0)] for the empty string. *)
Definition DecodeRuneInString (s : string) : N * nat :=
  match s with
  | EmptyString => (RuneError, 0)
  | String c0 t1 =>
      let s0 := N_of_ascii c0 in
      if (s0 <? 0x80)%N then (s0, 1%nat)
      else
        match first s0 with
        | None => (RuneError, 1)
        | Some (sz, lo, hi) =>
            if (String.length s <? sz)%nat then (RuneError, 1)
            else
              match t1 with
              | EmptyString => (RuneError, 1)
              | String c1 t2 =>
                  let s1 := N_of_ascii c1 in
                  if outside lo hi s1 then (RuneError, 1)
                  else if (sz <=? 2)%nat
                  then (((s0 mod 32) * 64 + s1 mod 64)%N, 2%nat)
                  else
                    match t2 with
                    | EmptyString => (RuneError, 1)
                    | String c2 t3 =>
                        let s2 := N_of_ascii c2 in
                        if outside 0x80 0xBF s2 then (RuneError, 1)
                        else if (sz <=? 3)%nat
                        then (((s0 mod 16) * 4096 + (s1 mod 64) * 64
                               + s2 mod 64)%N, 3%nat)
                        else
                          match t3 with
                          | EmptyString => (RuneError, 1)
                          | String c3 _ =>
                              let s3 := N_of_ascii c3 in
                              if outside 0x80 0xBF s3 then (RuneError, 1)
                              else (((s0 mod 8) * 262144
                                     + (s1 mod 64) * 4096
                                     + (s2 mod 64) * 64 + s3 mod 64)%N,
                                    4%nat)
                          end
                    end
              end
        end
  end.

End utf8.

(** ** Package regexp, for the one pattern the program compiles *)

Module regexp.

(** [\w]: [0-9A-Za-z_]. *)
Definition word_rune (r : N) : bool :=
  ((48 <=? r) && (r <=? 57) || (65 <=? r) && (r <=? 90)
   || (97 <=? r) && (r <=? 122) || (r =? 95))%N.

(** The pattern [[^\w\-.]]: one rune that is no word character, no
    ['-'] and no ['.']. *)
Definition unsafe_rune (r : N) : bool :=
  negb (word_rune r || (r =? 45)%N || (r =? 46)%N).

(** The match loop of [ReplaceAllString] for that pattern: runes are
    decoded one after the other; a matching rune is replaced by [repl],
    any other is copied.  [fuel] bounds the number of runes. *)
Fixpoint replace_loop (fuel : nat) (src repl : string) : string :=
  match fuel with
  | O => EmptyString
  | S fuel' =>
      match src with
      | EmptyString => EmptyString
      | String _ _ =>
          let '(r, w) := utf8.DecodeRuneInString src in
          (if unsafe_rune r then repl else substring 0 w src)
          +:+ replace_loop fuel' (strings.drop w src) repl
      end
  end.

(** [regexp.MustCompile(`[^\w\-.]`).ReplaceAllString(src, repl)]; a
    string has at most as many runes as bytes. *)
Definition ReplaceAllString (src repl : string) : string :=
  replace_loop (String.length src) src repl.

End regexp.

(** ** Package golang.org/x/net/html and goquery: the parsed document *)

Module html.

Inductive NodeType : Type :=
| ErrorNode | TextNode | DocumentNode | ElementNode | CommentNode
| DoctypeNode.

Record Attribute : Type := { Key : string; Val : string }.

#[local] Unset Elimination Schemes.
Inductive Node : Type :=
| mkNode (Type_ : NodeType) (Data : string) (Attr : list Attribute)
         (children : list Node).
#[local] Set Elimination Schemes.

Definition Type_ (n : Node) : NodeType :=
  match n with mkNode t _ _ _ => t end.
Definition Data (n : Node) : string :=
  match n with mkNode _ d _ _ => d end.
Definition Attr (n : Node) : list Attribute :=
  match n with mkNode _ _ a _ => a end.
Definition children (n : Node) : list Node :=
  match n with mkNode _ _ _ cs => cs end.

Definition is_element (n : Node) : bool :=
  match Type_ n with ElementNode => true | _ => false end.

End html.

Module goquery.
Import html.

(** Attribute lookup of [Selection.Attr]: the first attribute with the
    given key, and whether there is one. *)
Fixpoint getAttributeValue (attrName : string) (attrs : list Attribute)
  : option string :=
  match attrs with
  | [] => None
  | a :: attrs' =>
      if String.eqb (Key a) attrName then Some (Val a)
      else getAttributeValue attrName attrs'
  end.

Definition Attr (selection : Node) (attrName : string) : option string :=
  getAttributeValue attrName (html.Attr selection).

(** The compiled selector [a[href]]: an element named [a] that carries
    an [href] attribute. *)
Definition a_href (n : Node) : bool :=
  is_element n && String.eqb (Data n) "a"
  && match getAttributeValue "href" (html.Attr n) with
     | Some _ => true
     | None => false
     end.

(** [Matcher.MatchAll]: the node itself and its descendants, in
    document order, that satisfy the selector. *)
Fixpoint MatchAll (m : Node -> bool) (n : Node) : list Node :=
  match n with
  | mkNode _ _ _ cs =>
      (if m n then [n] else []) ++ List.flat_map (MatchAll m) cs
  end.

(** [Document.Find]: matches among the element children of the root
    and below them. *)
Definition Find (doc : Node) (m : Node -> bool) : list Node :=
  List.flat_map (fun c => if is_element c then MatchAll m c else [])
                (children doc).

(** [Selection.Each] with a callback that updates captured variables
    of type [S]. *)
Definition Each {S : Type} (sel : list Node) (f : S -> Node -> S)
  (init : S) : S :=
  fold_left f sel init.

End goquery.

(** ** Library routines taken as parameters *)

Record Lib : Type := {
  (** [url.Parse] *)
  url_Parse : string -> result url.URL;
  (** [goquery.NewDocumentFromReader(strings.NewReader(s))] *)
  goquery_NewDocumentFromReader : string -> result html.Node;
  (** [filepath.Join] of a directory and a file name *)
  filepath_Join : string -> string -> string
}.

(** ** Functions shared by every copy of the program *)

Section Shared.
Context (L : Lib).

(** [sanitizeFileNameFromURL] (src/main.go, lines 132-161). *)
Definition sanitizeFileNameFromURL (rawURL : string) : Logged string :=
  match url_Parse L rawURL with
  | Err err => ("invalid_filename", ["Error parsing URL: " +:+ err])
  | Ok parsedURL =>
      let fileName := path.Base (url.Path parsedURL) in
      let '(fileName, err) := url.QueryUnescape fileName in
      let log :=
        match err with
        | Some e => ["Error decoding file name: " +:+ e]
        | None => []
        end in
      let safeFileName := regexp.ReplaceAllString fileName "_" in
      let safeFileName := strings.Trim safeFileName "_" in
      if String.eqb safeFileName "" then ("downloaded_file", log)
      else (strings.ToLower safeFileName, log)
  end.

(** State of the callback in [parseHTML]: the captured [pdfLinks] and
    the log lines written so far. *)
Definition collect_pdf_link (st : Logged (list string))
  (selection : html.Node) : Logged (list string) :=
  let '(pdfLinks, log) := st in
  match goquery.Attr selection "href" with
  | None => st
  | Some href =>
      let '(decodedHref, err) := url.QueryUnescape href in
      match err with
      | Some e => (pdfLinks, log ++ ["Error decoding href: " +:+ e])
      | None =>
          if strings.HasSuffix (strings.ToLower decodedHref) ".pdf"
          then (pdfLinks ++ [href], log)
          else st
      end
  end.

(** [parseHTML] (src/main.go, lines 164-195). *)
Definition parseHTML (htmlContent : string) : Logged (list string) :=
  match goquery_NewDocumentFromReader L htmlContent with
  | Err err => ([], ["Error parsing HTML: " +:+ err])
  | Ok doc =>
      goquery.Each (goquery.Find doc goquery.a_href) collect_pdf_link
                   ([], [])
  end.

End Shared.

(** The [href] values of the anchors the selector [a[href]] finds. *)
Definition anchor_hrefs (doc : html.Node) : list string :=
  omap (fun n => goquery.Attr n "href") (goquery.Find doc goquery.a_href).

(** [check[content]] on a [map[string]bool]: [false] for a missing key. *)
Definition map_get (check : gmap string bool) (content : string) : bool :=
  default false (check !! content).

(** One iteration of the loop in [removeDuplicatesFromSlice]. *)
Definition dedup_step (st : gmap string bool * list string)
  (content : string) : gmap string bool * list string :=
  let '(check, newReturnSlice) := st in
  if negb (map_get check content)
  then (<[content := true]> check, newReturnSlice ++ [content])
  else st.

(** [removeDuplicatesFromSlice] (src/main.go, lines 113-123). *)
Definition removeDuplicatesFromSlice (slice : list string) : list string :=
  snd (fold_left dedup_step slice (∅, [])).

(** ** The world the program runs in *)

Module os.
(** What a path names on disk. *)
Inductive node : Type :=
| File (content : string)
| Dir.
End os.

(** [http.Response], as far as the program reads it.  The body delivers
    [Body] and then ends, with [BodyErr] if the transfer broke. *)
Record Response : Type := {
  StatusCode : Z;
  Status : string;
  ContentType : string;
  Body : string;
  BodyErr : option string
}.

(** What the network and the operating system answer.  A fault is the
    error a call returns; [write_fault p = Some (n, e)] lets a write to
    [p] fail with [e] once [n] bytes are written. *)
Record Env : Type := {
  http_get : string -> result Response;
  mkdir_fault : string -> option string;
  create_fault : string -> option string;
  open_fault : string -> option string;
  write_fault : string -> option (nat * string);
  close_fault : string -> option string;
  read_fault : string -> option string;
  body_close_fault : string -> option string
}.

(** Observable steps, most recent first in a trace. *)
Inductive event : Type :=
| EvLog (line : string)
| EvGet (url : string)
| EvReadBody (url : string) (written : nat)
| EvCloseBody (url : string)
| EvCreate (path : string)
| EvWrite (path : string) (data : string)
| EvCloseFile (path : string)
| EvWgDone.

Record World : Type := {
  fs : gmap string os.node;
  trace : list event
}.

(** A call either returns to its caller or ends the process
    ([os.Exit], reached through [log.Fatalln]). *)
Inductive outcome (A : Type) : Type :=
| Returned (a : A) (w : World)
| Exited (code : Z) (w : World).
Arguments Returned {A} a w.
Arguments Exited {A} code w.

Definition M (A : Type) : Type := World -> outcome A.

Definition ret {A} (a : A) : M A := fun w => Returned a w.

Definition bind {A B} (m : M A) (k : A -> M B) : M B :=
  fun w =>
    match m w with
    | Returned a w' => k a w'
    | Exited code w' => Exited code w'
    end.

Declare Scope io_scope.
Delimit Scope io_scope with io.
Notation "x <- c1 ;; c2" := (bind c1 (fun x => c2))
  (at level 100, c1 at next level, right associativity) : io_scope.
Notation "c1 ;; c2" := (bind c1 (fun _ => c2))
  (at level 100, right associativity) : io_scope.

Definition emit (e : event) : M unit :=
  fun w => Returned tt {| fs := fs w; trace := e :: trace w |}.

Definition set_fs (f : gmap string os.node -> gmap string os.node) : M unit :=
  fun w => Returned tt {| fs := f (fs w); trace := trace w |}.

Definition get_fs : M (gmap string os.node) :=
  fun w => Returned (fs w) w.

(** [defer cleanup] followed by the rest of the function: the cleanup
    runs when the rest returns, not when the process exits. *)
Definition defer_ {A} (cleanup : M unit) (rest : M A) : M A :=
  (a <- rest ;; cleanup ;; ret a)%io.

(** [log.Printf] / [log.Println]. *)
Definition log_Printf (line : string) : M unit := emit (EvLog line).

(** [log.Fatalln]: print, then [os.Exit(1)]. *)
Definition log_Fatalln {A} (line : string) : M A :=
  fun w => Exited 1 {| fs := fs w; trace := EvLog line :: trace w |}.

(** Send the lines a pure function logged to the log, in order. *)
Fixpoint log_lines (lines : list string) : M unit :=
  match lines with
  | [] => ret tt
  | line :: lines' => (log_Printf line ;; log_lines lines')%io
  end.

Definition run_logged {A} (x : Logged A) : M A :=
  (log_lines (logs x) ;; ret (value x))%io.

(** [wg.Done()]. *)
Definition wg_Done : M unit := emit EvWgDone.

Section Calls.
Context (E : Env).

(** [os.MkdirAll]: nothing to do for a directory, an error for a
    regular file in the way, otherwise the directory is made unless the
    system refuses. *)
Definition os_MkdirAll (path : string) : M (option string) :=
  (m <- get_fs ;;
   match m !! path with
   | Some os.Dir => ret None
   | Some (os.File _) => ret (Some "not a directory")
   | None =>
       match mkdir_fault E path with
       | Some err => ret (Some err)
       | None => set_fs (insert path os.Dir) ;; ret None
       end
   end)%io.

(** [fileExists]: [os.Stat] succeeds and the path is no directory. *)
Definition fileExists (filename : string) : M bool :=
  (m <- get_fs ;;
   match m !! filename with
   | Some (os.File _) => ret true
   | _ => ret false
   end)%io.

(** [client.Get] / [http.Get]. *)
Definition http_Get (url : string) : M (result Response) :=
  (emit (EvGet url) ;; ret (http_get E url))%io.

(** [resp.Body.Close()]. *)
Definition Body_Close (url : string) : M (option string) :=
  (emit (EvCloseBody url) ;; ret (body_close_fault E url))%io.

(** [os.Create]: an empty regular file replaces what was there. *)
Definition os_Create (path : string) : M (option string) :=
  (m <- get_fs ;;
   match m !! path with
   | Some os.Dir => ret (Some "is a directory")
   | _ =>
       match create_fault E path with
       | Some err => ret (Some err)
       | None =>
           set_fs (insert path (os.File "")) ;; emit (EvCreate path) ;;
           ret None
       end
   end)%io.

(** Bytes of [data] that reach the file at [path], and the write
    error if the write is cut short. *)
Definition write_outcome (path data : string) : string * option string :=
  match write_fault E path with
  | Some (n, err) =>
      if (n <? String.length data)%nat then (substring 0 n data, Some err)
      else (data, None)
  | None => (data, None)
  end.

(** [f.Write(data)] on the open file [path]: appended to its content. *)
Definition file_Write (path data : string) : M (nat * option string) :=
  (let '(done, err) := write_outcome path data in
   set_fs (fun m =>
             match m !! path with
             | Some (os.File c) => <[path := os.File (c +:+ done)]> m
             | _ => m
             end) ;;
   emit (EvWrite path done) ;;
   ret (String.length done, err))%io.

(** [out.Close()] / [filePath.Close()]. *)
Definition file_Close (path : string) : M (option string) :=
  (emit (EvCloseFile path) ;; ret (close_fault E path))%io.

(** [io.Copy(out, resp.Body)] with [out] the file at [path]: what the
    body delivers is written through; a write error stops the copy,
    otherwise the body is read to its end and its own error is
    returned. *)
Definition io_Copy_file (path url : string) (resp : Response)
  : M (nat * option string) :=
  (r <- file_Write path (Body resp) ;;
   match snd r with
   | Some err => ret (fst r, Some err)
   | None => emit (EvReadBody url (fst r)) ;; ret (fst r, BodyErr resp)
   end)%io.

(** [io.Copy(&buf, resp.Body)]: the body is drained into memory. *)
Definition io_Copy_buffer (url : string) (resp : Response)
  : M (string * nat * option string) :=
  (emit (EvReadBody url (String.length (Body resp))) ;;
   ret (Body resp, String.length (Body resp), BodyErr resp))%io.

(** [os.OpenFile(path, O_APPEND|O_CREATE|O_WRONLY, 0644)]. *)
Definition os_OpenFile_append (path : string) : M (option string) :=
  (m <- get_fs ;;
   match m !! path with
   | Some os.Dir => ret (Some "is a directory")
   | Some (os.File _) =>
       match open_fault E path with
       | Some err => ret (Some err)
       | None => ret None
       end
   | None =>
       match open_fault E path with
       | Some err => ret (Some err)
       | None => set_fs (insert path (os.File "")) ;; ret None
       end
   end)%io.

(** [os.ReadFile]. *)
Definition os_ReadFile (path : string) : M (result string) :=
  (m <- get_fs ;;
   match m !! path with
   | Some (os.File c) =>
       match read_fault E path with
       | Some err => ret (Err err)
       | None => ret (Ok c)
       end
   | Some os.Dir => ret (Err "is a directory")
   | None => ret (Err "no such file or directory")
   end)%io.

End Calls.

Definition newline : string := String (ascii_of_nat 10) EmptyString.

(** ** src/main.go *)

Module MainGo.
Section Program.
Context (L : Lib) (E : Env).

(** The file name [downloadPDF] derives from the URL (lines 68-75). *)
Definition derive_filename (sanitized finalURL : string) : string :=
  let filename := sanitized in
  let filename :=
    if String.eqb filename "" then path.Base finalURL else filename in
  if negb (strings.HasSuffix (strings.ToLower filename) ".pdf")
  then filename +:+ ".pdf"
  else filename.

(** The path [downloadPDF] saves to (lines 68-75). *)
Definition target_path (finalURL outputDir : string) : string :=
  filepath_Join L outputDir
    (derive_filename (value (sanitizeFileNameFromURL L finalURL)) finalURL).

(** [downloadPDF] (lines 60-110). *)
Definition downloadPDF (finalURL outputDir : string) : M bool :=
  defer_ wg_Done
    (err <- os_MkdirAll E outputDir ;;
     match err with
     | Some err =>
         log_Printf ("Failed to create directory " +:+ outputDir +:+ ": "
                     +:+ err) ;;
         ret false
     | None =>
         filename <- run_logged (sanitizeFileNameFromURL L finalURL) ;;
         let filename := derive_filename filename finalURL in
         let filePath := filepath_Join L outputDir filename in
         present <- fileExists filePath ;;
         if (present : bool) then
           log_Printf ("File already exists, skipping: " +:+ filePath) ;;
           ret false
         else
           r <- http_Get E finalURL ;;
           match r with
           | Err err =>
               log_Printf ("Failed to download " +:+ finalURL +:+ ": "
                           +:+ err) ;;
               ret false
           | Ok resp =>
               defer_ (Body_Close E finalURL ;; ret tt)
                 (if negb (StatusCode resp =? 200)%Z then
                    log_Printf ("Download failed for " +:+ finalURL
                                +:+ ": " +:+ Status resp) ;;
                    ret false
                  else
                    cerr <- os_Create E filePath ;;
                    match cerr with
                    | Some err =>
                        log_Printf ("Failed to create file " +:+ finalURL
                                    +:+ " " +:+ filePath +:+ " " +:+ err) ;;
                        ret false
                    | None =>
                        defer_ (file_Close E filePath ;; ret tt)
                          (c <- io_Copy_file E filePath finalURL resp ;;
                           match snd c with
                           | Some err =>
                               log_Printf ("Failed to save PDF to "
                                           +:+ finalURL +:+ " " +:+ filePath
                                           +:+ " " +:+ err) ;;
                               ret false
                           | None =>
                               log_Printf ("Downloaded " +:+ finalURL
                                           +:+ " → " +:+ filePath) ;;
                               ret true
                           end)
                    end)
           end
     end)%io.

(** [appendAndWriteToFile] (lines 198-211). *)
Definition appendAndWriteToFile (path content : string) : M unit :=
  (err <- os_OpenFile_append E path ;;
   match err with
   | Some err => log_Fatalln err
   | None =>
       r <- file_Write E path (content +:+ newline) ;;
       match snd r with
       | Some err => log_Fatalln err
       | None =>
           err <- file_Close E path ;;
           match err with
           | Some err => log_Fatalln err
           | None => ret tt
           end
       end
   end)%io.

(** [readAFileAsString] (lines 227-233). *)
Definition readAFileAsString (path : string) : M string :=
  (r <- os_ReadFile E path ;;
   match r with
   | Err err => log_Fatalln err
   | Ok content => ret content
   end)%io.

(** [getDataFromURL] (lines 236-251). *)
Definition getDataFromURL (uri : string) : M string :=
  (log_Printf ("Scraping " +:+ uri) ;;
   r <- http_Get E uri ;;
   match r with
   | Err err => log_Fatalln err
   | Ok response =>
       b <- io_Copy_buffer uri response ;;
       match snd b with
       | Some err => log_Fatalln err
       | None =>
           err <- Body_Close E uri ;;
           match err with
           | Some err => log_Fatalln err
           | None => ret (fst (fst b))
           end
       end
   end)%io.

End Program.
End MainGo.

(** ** The copy that checks the content type before saving *)

Module Checked.
Section Program.
Context (L : Lib) (E : Env).

(** The path [downloadPDF] saves to in that copy (its lines 147-148). *)
Definition target_path (finalURL outputDir : string) : string :=
  filepath_Join L outputDir (value (sanitizeFileNameFromURL L finalURL)).

(** [downloadPDF] of that copy (its lines 144-189). *)
Definition downloadPDF (finalURL outputDir : string) : M bool :=
  defer_ wg_Done
    (filename <- run_logged (sanitizeFileNameFromURL L finalURL) ;;
     let filePath := filepath_Join L outputDir filename in
     present <- fileExists filePath ;;
     if (present : bool) then
       log_Printf ("File already exists, skipping: " +:+ filePath) ;;
       ret false
     else
       r <- http_Get E finalURL ;;
       match r with
       | Err err =>
           log_Printf ("Failed to download " +:+ finalURL +:+ ": " +:+ err) ;;
           ret false
       | Ok resp =>
           defer_ (Body_Close E finalURL ;; ret tt)
             (if negb (StatusCode resp =? 200)%Z then
                log_Printf ("Download failed for " +:+ finalURL +:+ ": "
                            +:+ Status resp) ;;
                ret false
              else
                let contentType := ContentType resp in
                if negb (String.eqb contentType "application/pdf") then
                  log_Printf ("Invalid content type for " +:+ finalURL
                              +:+ ": " +:+ contentType
                              +:+ " (expected application/pdf)") ;;
                  ret false
                else
                  cerr <- os_Create E filePath ;;
                  match cerr with
                  | Some err =>
                      log_Printf ("Failed to create file for " +:+ finalURL
                                  +:+ ": " +:+ err) ;;
                      ret false
                  | None =>
                      defer_ (file_Close E filePath ;; ret tt)
                        (c <- io_Copy_file E filePath finalURL resp ;;
                         match snd c with
                         | Some err =>
                             log_Printf ("Failed to save PDF from "
                                         +:+ finalURL +:+ ": " +:+ err) ;;
                             ret false
                         | None =>
                             log_Printf ("Downloaded " +:+ finalURL
                                         +:+ " → " +:+ filePath) ;;
                             ret true
                         end)
                  end)
       end)%io.

End Program.
End Checked.

(** ** The copies that buffer the body before creating the file *)

Module Buffered.
Section Program.
Context (E : Env).

(** Body of [downloadPDF] in both buffering copies (lines 412-466 and
    791-843 of the file that holds them); the caller hands in the file
    path. *)
Definition download (finalURL filePath : string) : M bool :=
  (r <- http_Get E finalURL ;;
   match r with
   | Err err =>
       log_Printf ("Failed to download " +:+ finalURL +:+ ": " +:+ err) ;;
       ret false
   | Ok resp =>
       defer_ (Body_Close E finalURL ;; ret tt)
         (if negb (StatusCode resp =? 200)%Z then
            log_Printf ("Download failed for " +:+ finalURL +:+ ": "
                        +:+ Status resp) ;;
            ret false
          else
            let contentType := ContentType resp in
            if negb (strings.Contains contentType "application/pdf") then
              log_Printf ("Invalid content type for " +:+ finalURL +:+ ": "
                          +:+ contentType +:+ " (expected application/pdf)") ;;
              ret false
            else
              b <- io_Copy_buffer finalURL resp ;;
              let buf := fst (fst b) in
              let written := snd (fst b) in
              match snd b with
              | Some err =>
                  log_Printf ("Failed to read PDF data from " +:+ finalURL
                              +:+ ": " +:+ err) ;;
                  ret false
              | None =>
                  if (written =? 0)%nat then
                    log_Printf ("Downloaded 0 bytes for " +:+ finalURL
                                +:+ "; not creating file") ;;
                    ret false
                  else
                    cerr <- os_Create E filePath ;;
                    match cerr with
                    | Some err =>
                        log_Printf ("Failed to create file for "
                                    +:+ finalURL +:+ ": " +:+ err) ;;
                        ret false
                    | None =>
                        defer_ (file_Close E filePath ;; ret tt)
                          (c <- file_Write E filePath buf ;;
                           match snd c with
                           | Some err =>
                               log_Printf ("Failed to write PDF to file for "
                                           +:+ finalURL +:+ ": " +:+ err) ;;
                               ret false
                           | None =>
                               log_Printf ("Successfully downloaded "
                                           +:+ pretty written +:+ " bytes: "
                                           +:+ finalURL +:+ " → "
                                           +:+ filePath) ;;
                               ret true
                           end)
                    end
              end)
   end)%io.

(** The concurrent copy: [defer wg.Done()] first. *)
Definition downloadPDF (finalURL filePath : string) : M bool :=
  defer_ wg_Done (download finalURL filePath).

(** The sequential copy has no wait group. *)
Definition downloadPDF_sequential (finalURL filePath : string) : M bool :=
  download finalURL filePath.

End Program.
End Buffered.

(** ** Specification-side definitions *)

(** The file name as the specification words it: every character of
    [name] outside [[A-Za-z0-9_.-]] replaced by ['_'], leading and
    trailing ['_'] trimmed, the result lowercased, and a fixed fallback
    for an empty result. *)
Definition sanitized_as_specified (name : string) : string :=
  let r :=
    strings.ToLower (strings.Trim (regexp.ReplaceAllString name "_") "_") in
  if String.eqb r "" then "downloaded_file" else r.

(** A byte of [[A-Za-z0-9_.-]]. *)
Definition safe_byte (c : ascii) : bool :=
  is_digit c || is_upper c || is_lower c
  || Ascii.eqb c "_" || Ascii.eqb c "-" || Ascii.eqb c ".".

(** A byte of [[a-z0-9_.-]]. *)
Definition lower_safe_byte (c : ascii) : bool :=
  is_digit c || is_lower c
  || Ascii.eqb c "_" || Ascii.eqb c "-" || Ascii.eqb c ".".

(** What the replacement does to one ASCII byte. *)
Definition replace_byte (c : ascii) : ascii :=
  if safe_byte c then c else "_"%char.

Fixpoint map_bytes (f : ascii -> ascii) (s : string) : string :=
  match s with
  | EmptyString => EmptyString
  | String c s' => String (f c) (map_bytes f s')
  end.

Definition first_byte (s : string) : option ascii :=
  match s with
  | EmptyString => None
  | String c _ => Some c
  end.

Fixpoint last_byte (s : string) : option ascii :=
  match s with
  | EmptyString => None
  | String c EmptyString => Some c
  | String _ s' => last_byte s'
  end.

(** The byte, if there is one, is not in the cutset. *)
Definition not_in (cutset : string) (b : option ascii) : Prop :=
  match b with
  | Some c => strings.has_byte cutset c = false
  | None => True
  end.

(** A byte that [url.QueryUnescape] copies unchanged. *)
Definition plain_byte (c : ascii) : bool :=
  negb (Ascii.eqb c "%" || Ascii.eqb c "+").

(** An [href] the callback of [parseHTML] keeps: it unescapes without
    error and its unescaped form, lowercased, ends in [.pdf]. *)
Definition pdf_target (href : string) : bool :=
  match url.QueryUnescape href with
  | (decoded, None) => strings.HasSuffix (strings.ToLower decoded) ".pdf"
  | (_, Some _) => false
  end.

(** Position of the first occurrence of [x] in [l]. *)
Fixpoint first_index (x : string) (l : list string) : option nat :=
  match l with
  | [] => None
  | y :: l' => if decide (y = x) then Some 0 else S <$> first_index x l'
  end.

(** Strings of [l] not in [seen], each kept at its first occurrence. *)
Fixpoint keep_unseen (seen l : list string) : list string :=
  match l with
  | [] => []
  | x :: l' =>
      if decide (x ∈ seen) then keep_unseen seen l'
      else x :: keep_unseen (x :: seen) l'
  end.

(** Trace measures. *)
Definition is_get (e : event) : bool :=
  match e with EvGet _ => true | _ => false end.
Definition is_log (e : event) : bool :=
  match e with EvLog _ => true | _ => false end.
Definition is_create (e : event) : bool :=
  match e with EvCreate _ => true | _ => false end.

Definition count (p : event -> bool) (t : list event) : nat :=
  length (List.filter p t).

(** Two worlds hold the same regular files with the same content. *)
Definition same_files (w w' : World) : Prop :=
  ∀ p c, fs w' !! p = Some (os.File c) ↔ fs w !! p = Some (os.File c).

(** Scanning a trace from the oldest event on: every file creation
    comes after a completed read of the body. *)
Fixpoint created_after_read (chronological : list event) (read : bool)
  : bool :=
  match chronological with
  | [] => true
  | EvReadBody _ _ :: t => created_after_read t true
  | EvCreate _ :: t => read && created_after_read t read
  | _ :: t => created_after_read t read
  end.

(** ** Outcomes of calls *)

(** [m] run in [w] returns, with a value and a world that satisfy [Q]. *)
Definition returns {A} (m : M A) (w : World) (Q : A → World → Prop) : Prop :=
  ∃ a w', m w = Returned a w' ∧ Q a w'.

(** [m] run in [w] ends the process with status 1, in a world that
    satisfies [Q]. *)
Definition exits {A} (m : M A) (w : World) (Q : World → Prop) : Prop :=
  ∃ w', m w = Exited 1 w' ∧ Q w'.

Definition add_event (e : event) (w : World) : World :=
  {| fs := fs w; trace := e :: trace w |}.

Definition with_fs (m : gmap string os.node) (w : World) : World :=
  {| fs := m; trace := trace w |}.

Definition add_log_lines (lines : list string) (w : World) : World :=
  {| fs := fs w; trace := rev (map EvLog lines) ++ trace w |}.

(** The last thing a process that ended through [log.Fatalln] did was
    to log. *)
Definition logged_last (w : World) : Prop :=
  ∃ line t, trace w = EvLog line :: t.

(** ** Concrete libraries, environments and documents used in examples *)

Module Examples.
Import html.

Definition text (s : string) : Node := mkNode TextNode s [] [].
Definition elem (tag : string) (attrs : list Attribute)
  (cs : list Node) : Node := mkNode ElementNode tag attrs cs.
Definition anchor (href label : string) : Node :=
  elem "a" [ {| Key := "href"; Val := href |} ] [text label].

(** A listing page with four anchors. *)
Definition listing_html : string :=
  "<a href='/sds/a%2Epdf'>A</a><a href='/sds/100%.pdf'>B</a>"
  +:+ "<a href='/sds/c.PDF'>C</a><a href='/about'>D</a>".

(** The tree the HTML parser builds for [listing_html]. *)
Definition listing_doc : Node :=
  mkNode DocumentNode "" []
    [ elem "html" []
        [ elem "head" [] [];
          elem "body" []
            [ anchor "/sds/a%2Epdf" "A"; anchor "/sds/100%.pdf" "B";
              anchor "/sds/c.PDF" "C"; anchor "/about" "D" ] ] ].

Definition escaped_url : string := "https://www.avient.com/sds/a%2541.pdf".
Definition broken_url : string := "https://www.avient.com/sds/%zz.pdf".
Definition plain_url : string := "https://www.avient.com/sds/My%20Sheet.PDF".

(** [url.Parse] on the URLs above: the path is unescaped once
    ([%25] gives [%], [%20] a space); a malformed escape in the path is
    an error. *)
Definition parse_url (rawURL : string) : result url.URL :=
  if String.eqb rawURL escaped_url then Ok {| url.Path := "/sds/a%41.pdf" |}
  else if String.eqb rawURL plain_url
  then Ok {| url.Path := "/sds/My Sheet.PDF" |}
  else Err "invalid URL escape".

(** The join is plain concatenation, which is what [filepath.Join]
    gives for a directory written with its final slash and a file name
    without one. *)
Definition lib : Lib := {|
  url_Parse := parse_url;
  goquery_NewDocumentFromReader := fun _ => Ok listing_doc;
  filepath_Join := fun dir name => dir +:+ name
|}.

Definition response (status : Z) (line contentType body : string)
  (bodyErr : option string) : Response :=
  {| StatusCode := status; Status := line; ContentType := contentType;
     Body := body; BodyErr := bodyErr |}.

(** A server that answers every request with [resp]; no faults. *)
Definition serving (resp : Response) : Env := {|
  http_get := fun _ => Ok resp;
  mkdir_fault := fun _ => None;
  create_fault := fun _ => None;
  open_fault := fun _ => None;
  write_fault := fun _ => None;
  close_fault := fun _ => None;
  read_fault := fun _ => None;
  body_close_fault := fun _ => None
|}.

(** The same, on a disk where the listing file cannot be opened. *)
Definition read_only_disk (resp : Response) : Env := {|
  http_get := fun _ => Ok resp;
  mkdir_fault := fun _ => None;
  create_fault := fun _ => None;
  open_fault := fun _ => Some "permission denied";
  write_fault := fun _ => None;
  close_fault := fun _ => None;
  read_fault := fun _ => None;
  body_close_fault := fun _ => None
|}.

Definition html_page : Response :=
  response 200 "200 OK" "text/html" "<html>not a pdf</html>" None.
Definition not_found : Response :=
  response 404 "404 Not Found" "text/html" "gone" None.
Definition broken_pdf : Response :=
  response 200 "200 OK" "application/pdf" "%PDF-1.4" (Some "unexpected EOF").

Definition empty_world : World := {| fs := ∅; trace := [] |}.

Definition world_with (path content : string) : World :=
  {| fs := {[ path := os.File content ]}; trace := [] |}.

End Examples.

(** ** The rest of the program: loops, listing pages, the later copies *)

(** A [for] loop whose counter starts at [i] and that runs [n] times. *)
Fixpoint for_count (n i : nat) (body : nat -> M unit) : M unit :=
  match n with
  | O => ret tt
  | S n' => (body i ;; for_count n' (S i) body)%io
  end.

(** [for i := first; i <= last; i++ { body }]. *)
Definition for_range (first last : nat) (body : nat -> M unit) : M unit :=
  for_count (S last - first) first body.

(** [for _, x := range xs { body }]. *)
Fixpoint for_each {A} (xs : list A) (body : A -> M unit) : M unit :=
  match xs with
  | [] => ret tt
  | x :: xs' => (body x ;; for_each xs' body)%io
  end.

(** An unrecovered run-time panic (here: a nil pointer dereference):
    the Go runtime ends the process with status 2; deferred calls of
    other functions and the [log] package play no part. *)
Definition runtime_panic {A} : M A := fun w => Exited 2 w.

Definition baseURL : string :=
  "https://www.avient.com/resources/safety-data-sheets?page=".

Definition domainURL : string := "https://www.avient.com".

(** [fmt.Sprintf("%s%d", baseURL, pageNumber)]. *)
Definition page_url (pageNumber : nat) : string :=
  baseURL +:+ pretty pageNumber.

(** *** src/main.go: [main] up to the concurrent downloads *)

Module MainGoListing.
Section Program.
Context (L : Lib) (E : Env).

Definition localLocation : string := "avient.com.html".

(** Body of the page loop of [main] (lines 26-32). *)
Definition fetch_page (pageNumber : nat) : M unit :=
  (urlData <- MainGo.getDataFromURL E (page_url pageNumber) ;;
   MainGo.appendAndWriteToFile E localLocation urlData)%io.

(** The page loop of [main] (lines 26-32). *)
Definition fetch_pages : M unit := for_range 0 1000 fetch_page.

(** [main] from its start to the list of links it then downloads
    concurrently (lines 20-40); [None] when the listing file is not
    there after the loop. *)
Definition main_listing : M (option (list string)) :=
  (fetch_pages ;;
   present <- fileExists localLocation ;;
   if (present : bool) then
     localDiskHTMLContent <- MainGo.readAFileAsString E localLocation ;;
     fullURLList <- run_logged (parseHTML L localDiskHTMLContent) ;;
     ret (Some (removeDuplicatesFromSlice fullURLList))
   else ret None)%io.

End Program.
End MainGoListing.

(** *** The content-type checking copy: its [getDataFromURL] *)

Module CheckedListing.
Section Program.
Context (E : Env).

(** [getDataFromURL] of that copy (its lines 305-326); its
    [appendAndWriteToFile] is the one of src/main.go, and the
    [defer wg.Done()] is its last statement. *)
Definition getDataFromURL (uri localLocationo : string) : M unit :=
  (log_Printf ("Scraping " +:+ uri) ;;
   r <- http_Get E uri ;;
   match r with
   | Err err => log_Fatalln err
   | Ok response =>
       b <- io_Copy_buffer uri response ;;
       match snd b with
       | Some err => log_Fatalln err
       | None =>
           err <- Body_Close E uri ;;
           match err with
           | Some err => log_Fatalln err
           | None =>
               MainGo.appendAndWriteToFile E localLocationo (fst (fst b)) ;;
               wg_Done
           end
       end
   end)%io.

End Program.
End CheckedListing.

(** *** The buffering copies: helpers that log instead of terminating,
    and the sequential [main] *)

Module Lenient.
Section Program.
Context (L : Lib) (E : Env).
(** [url.ParseRequestURI]. *)
Context (url_ParseRequestURI : string -> result url.URL).

(** [directoryExists]: [os.Stat] succeeds and the path is a directory. *)
Definition directoryExists (path : string) : M bool :=
  (m <- get_fs ;;
   match m !! path with
   | Some os.Dir => ret true
   | _ => ret false
   end)%io.

(** [os.Mkdir]: an error when something is at the path already. *)
Definition os_Mkdir (path : string) : M (option string) :=
  (m <- get_fs ;;
   match m !! path with
   | Some _ => ret (Some "file exists")
   | None =>
       match mkdir_fault E path with
       | Some err => ret (Some err)
       | None => set_fs (insert path os.Dir) ;; ret None
       end
   end)%io.

(** [createDirectory]: the error is logged and the program goes on. *)
Definition createDirectory (path : string) : M unit :=
  (err <- os_Mkdir path ;;
   match err with
   | Some err => log_Printf err
   | None => ret tt
   end)%io.

(** [isUrlValid]. *)
Definition isUrlValid (uri : string) : bool :=
  match url_ParseRequestURI uri with
  | Ok _ => true
  | Err _ => false
  end.

(** [os.OpenFile] as [appendAndWriteToFile] calls it: the file, or
    [nil] with the error. *)
Definition open_append (path : string) : M (option string * option string) :=
  (err <- os_OpenFile_append E path ;;
   match err with
   | Some err => ret (None, Some err)
   | None => ret (Some path, None)
   end)%io.

(** [WriteString] of an [os.File]: [os.ErrInvalid] on a nil file. *)
Definition File_WriteString (f : option string) (data : string)
  : M (option string) :=
  match f with
  | None => ret (Some "invalid argument")
  | Some path => (r <- file_Write E path data ;; ret (snd r))%io
  end.

(** [Close] of an [os.File]: [os.ErrInvalid] on a nil file. *)
Definition File_Close (f : option string) : M (option string) :=
  match f with
  | None => ret (Some "invalid argument")
  | Some path => file_Close E path
  end.

(** [log.Println(err)] under [if err != nil]. *)
Definition log_if_error (err : option string) : M unit :=
  match err with
  | Some err => log_Printf err
  | None => ret tt
  end.

(** [appendAndWriteToFile] of the concurrent buffering copy (lines
    587-615 of the file that holds it): every error is logged and the
    function carries on with the next statement. *)
Definition appendAndWriteToFile (path content : string) : M unit :=
  (opened <- open_append path ;;
   log_if_error (snd opened) ;;
   err <- File_WriteString (fst opened) (content +:+ newline) ;;
   log_if_error err ;;
   err <- File_Close (fst opened) ;;
   log_if_error err)%io.

(** What [getDataFromURL] does in both buffering copies before it
    stores or returns the page: a failed request is logged, and then
    [response.Body] is read although [response] is nil. *)
Definition fetch_body (uri : string) : M string :=
  (log_Printf ("Scraping " +:+ uri) ;;
   r <- http_Get E uri ;;
   match r with
   | Err err => log_Printf err ;; runtime_panic
   | Ok response =>
       b <- io_Copy_buffer uri response ;;
       log_if_error (snd b) ;;
       err <- Body_Close E uri ;;
       log_if_error err ;;
       ret (fst (fst b))
   end)%io.

(** [getDataFromURL] of the sequential copy (lines 952-981). *)
Definition getDataFromURL (uri : string) : M string := fetch_body uri.

(** [getDataFromURL] of the concurrent copy (lines 642-675). *)
Definition getDataFromURL_to_file (uri localLocationo : string) : M unit :=
  (body <- fetch_body uri ;;
   appendAndWriteToFile localLocationo body ;;
   wg_Done)%io.

Definition outputDir : string := "PDFs/".

(** The full URL the link loops build: the domain is put in front of
    a link that lacks it, and a link that has it leaves [fullURL]
    empty. *)
Definition full_url (url : string) : string :=
  if negb (strings.HasPrefix url domainURL) then domainURL +:+ url
  else "".

(** Body of the link loop of the sequential [main] (lines 726-764);
    the pauses ([time.Sleep]) are left out. *)
Definition handle_link (url : string) : M unit :=
  (let fullURL := full_url url in
   if negb (isUrlValid fullURL) then
     log_Printf ("Failed to parse URL: " +:+ fullURL)
   else
     filename <- run_logged (sanitizeFileNameFromURL L fullURL) ;;
     let filePath := filepath_Join L outputDir filename in
     present <- fileExists filePath ;;
     if (present : bool) then
       log_Printf ("File already exists, skipping: " +:+ filePath)
     else if (String.length filename <? 2)%nat then
       log_Printf ("File name validation failed for: " +:+ filename)
     else
       Buffered.downloadPDF_sequential E fullURL filePath ;; ret tt)%io.

(** Body of the page loop of the sequential [main] (lines 712-765). *)
Definition handle_page (pageNumber : nat) : M unit :=
  (HTMLContent <- getDataFromURL (page_url pageNumber) ;;
   fullURLList <- run_logged (parseHTML L HTMLContent) ;;
   for_each fullURLList handle_link)%io.

(** [main] of the sequential copy (lines 695-766). *)
Definition main : M unit :=
  (present <- directoryExists outputDir ;;
   (if (present : bool) then ret tt else createDirectory outputDir) ;;
   for_range 7200 7243 handle_page)%io.

End Program.
End Lenient.

(** *** Conditions and outcomes used in the statements below *)

(** The listing file before an append: absent, or a regular file. *)
Definition holds (w : World) (path old : string) : Prop :=
  fs w !! path = Some (os.File old) ∨ (fs w !! path = None ∧ old = "").

Definition no_file_faults (E : Env) (path : string) : Prop :=
  open_fault E path = None ∧ write_fault E path = None
  ∧ close_fault E path = None.

(** The request for [uri] is answered, the body arrives whole and is
    closed without error. *)
Definition fetched (E : Env) (uri : string) (resp : Response) : Prop :=
  http_get E uri = Ok resp ∧ BodyErr resp = None
  ∧ body_close_fault E uri = None.

(** The request fails, or the body breaks off, or closing it fails. *)
Definition fetch_fails (E : Env) (uri : string) : Prop :=
  (∃ err, http_get E uri = Err err)
  ∨ (∃ resp, http_get E uri = Ok resp
             ∧ (BodyErr resp ≠ None ∨ body_close_fault E uri ≠ None)).

(** The body of listing page [i] as the server sends it. *)
Definition page_body (E : Env) (i : nat) : string :=
  match http_get E (page_url i) with
  | Ok resp => Body resp
  | Err _ => ""
  end.

(** Pages [i], [i+1], ... ([n] of them), each followed by a newline. *)
Fixpoint pages_text (E : Env) (n i : nat) : string :=
  match n with
  | O => ""
  | S n' => page_body E i +:+ newline +:+ pages_text E n' (S i)
  end.

(** The output directory is there or can be made. *)
Definition directory_ready (E : Env) (w : World) (dir : string) : Prop :=
  fs w !! dir = Some os.Dir ∨ (fs w !! dir = None ∧ mkdir_fault E dir = None).

(** [m] run in [w] ends the process by a run-time panic (status 2). *)
Definition panics {A} (m : M A) (w : World) (Q : World → Prop) : Prop :=
  ∃ w', m w = Exited 2 w' ∧ Q w'.

(** The process has just failed to get [uri]. *)
Definition stopped_at (uri : string) (w : World) : Prop :=
  ∃ err t, trace w = EvLog err :: EvGet uri :: t.

Definition is_done (e : event) : bool :=
  match e with EvWgDone => true | _ => false end.

(** *** More concrete environments *)

Module MoreExamples.

(** No network: every request fails without a response. *)
Definition offline : Env := {|
  http_get := fun _ => Err "dial tcp: network is unreachable";
  mkdir_fault := fun _ => None;
  create_fault := fun _ => None;
  open_fault := fun _ => None;
  write_fault := fun _ => None;
  close_fault := fun _ => None;
  read_fault := fun _ => None;
  body_close_fault := fun _ => None
|}.

Definition pdf : Response :=
  Examples.response 200 "200 OK" "application/pdf" "%PDF-1.4 sheet" None.

(** [url.ParseRequestURI] on the strings used below: the empty string
    is an error ([empty url]); the sample URL parses. *)
Definition parse_request_uri (uri : string) : result url.URL :=
  if String.eqb uri "" then Err "empty url"
  else if String.eqb uri Examples.plain_url
  then Ok {| url.Path := "/sds/My Sheet.PDF" |}
  else Err "invalid URI for request".

Definition english_sheet : string := "https://www.avient.com/sds/en/sheet.pdf".
Definition german_sheet : string := "https://www.avient.com/sds/de/sheet.pdf".

(** [url.Parse] on the two sheets: same file name, other directory. *)
Definition parse_sheets (rawURL : string) : result url.URL :=
  if String.eqb rawURL english_sheet then Ok {| url.Path := "/sds/en/sheet.pdf" |}
  else if String.eqb rawURL german_sheet
  then Ok {| url.Path := "/sds/de/sheet.pdf" |}
  else Err "invalid URL escape".

Definition german_pdf : Response :=
  Examples.response 200 "200 OK" "application/pdf" "%PDF-1.4 Blatt" None.

(** A server with one document per sheet. *)
Definition sheets_server : Env := {|
  http_get := fun uri =>
    if String.eqb uri german_sheet then Ok german_pdf else Ok pdf;
  mkdir_fault := fun _ => None;
  create_fault := fun _ => None;
  open_fault := fun _ => None;
  write_fault := fun _ => None;
  close_fault := fun _ => None;
  read_fault := fun _ => None;
  body_close_fault := fun _ => None
|}.

Definition sheets_lib : Lib := {|
  url_Parse := parse_sheets;
  goquery_NewDocumentFromReader := fun _ => Ok Examples.listing_doc;
  filepath_Join := fun dir name => dir +:+ name
|}.

End MoreExamples.

(** * Properties *)

(** ** The library models on small inputs *)

Example QueryUnescape_decodes :
  url.QueryUnescape "My%20Sheet+v2.pdf" = ("My Sheet v2.pdf", None).
Proof. reflexivity. Qed.

Example QueryUnescape_rejects :
  url.QueryUnescape "100%.pdf" = ("", Some "invalid URL escape %.p").
Proof. reflexivity. Qed.

Example Base_cases :
  path.Base "/sds/a.pdf" = "a.pdf" ∧ path.Base "/sds/" = "sds"
  ∧ path.Base "" = "." ∧ path.Base "//" = "/" ∧ path.Base "a.pdf" = "a.pdf".
Proof. repeat split; reflexivity. Qed.

Example Trim_cases :
  strings.Trim "__a_b__" "_" = "a_b" ∧ strings.Trim "___" "_" = ""
  ∧ strings.Trim "a" "_" = "a".
Proof. repeat split; reflexivity. Qed.

Example HasSuffix_cases :
  strings.HasSuffix (strings.ToLower "/sds/c.PDF") ".pdf" = true
  ∧ strings.HasSuffix "pdf" ".pdf" = false
  ∧ strings.HasSuffix "a.pdfx" ".pdf" = false.
Proof. repeat split; reflexivity. Qed.

Example DecodeRuneInString_cases :
  let bytes := fun l => string_of_list_ascii (List.map ascii_of_N l) in
  utf8.DecodeRuneInString (bytes [0xC3; 0xA9]%N) = (0xE9%N, 2%nat)
  ∧ utf8.DecodeRuneInString (bytes [0xE2; 0x82; 0xAC]%N) = (0x20AC%N, 3%nat)
  ∧ utf8.DecodeRuneInString (bytes [0xF0; 0x9F; 0x98; 0x80]%N)
    = (0x1F600%N, 4%nat)
  ∧ utf8.DecodeRuneInString (bytes [0xC0; 0x80]%N) = (utf8.RuneError, 1%nat)
  ∧ utf8.DecodeRuneInString (bytes [0xED; 0xA0; 0x80]%N)
    = (utf8.RuneError, 1%nat)
  ∧ utf8.DecodeRuneInString (bytes [0xE2; 0x82]%N) = (utf8.RuneError, 1%nat).
Proof. vm_compute. repeat split; reflexivity. Qed.

Example ReplaceAllString_runes :
  let e_acute := string_of_list_ascii (List.map ascii_of_N [0xC3; 0xA9]%N) in
  regexp.ReplaceAllString ("caf" +:+ e_acute +:+ " (1).pdf") "_"
  = "caf___1_.pdf".
Proof. vm_compute. reflexivity. Qed.

Example sanitizeFileNameFromURL_plain_url :
  sanitizeFileNameFromURL Examples.lib Examples.plain_url
  = ("my_sheet.pdf", []).
Proof. vm_compute. reflexivity. Qed.

Example removeDuplicatesFromSlice_example :
  removeDuplicatesFromSlice ["/b.pdf"; "/a.pdf"; "/b.pdf"; "/c.pdf"; "/a.pdf"]
  = ["/b.pdf"; "/a.pdf"; "/c.pdf"].
Proof. vm_compute. reflexivity. Qed.

(** ** Strings *)

Lemma eqb_empty_false (s : string) : s ≠ "" → String.eqb s "" = false.
Proof. intros Hs. apply String.eqb_neq. exact Hs. Qed.

Lemma ToLower_length (s : string) :
  String.length (strings.ToLower s) = String.length s.
Proof. induction s as [|c s IH]; simpl; [reflexivity | now rewrite IH]. Qed.

Lemma ToLower_eqb_empty (s : string) :
  String.eqb (strings.ToLower s) "" = String.eqb s "".
Proof. destruct s; reflexivity. Qed.

Lemma ToLower_nonempty (s : string) : s ≠ "" → strings.ToLower s ≠ "".
Proof. destruct s; simpl; [congruence | discriminate]. Qed.

Lemma ToLower_idempotent (s : string) :
  strings.ToLower (strings.ToLower s) = strings.ToLower s.
Proof.
  induction s as [|c s IH]; simpl; [reflexivity|].
  rewrite IH. f_equal.
  destruct c as [[] [] [] [] [] [] [] []]; vm_compute; reflexivity.
Qed.

Lemma unsafe_rune_byte (c : ascii) :
  regexp.unsafe_rune (N_of_ascii c) = negb (safe_byte c).
Proof. destruct c as [[] [] [] [] [] [] [] []]; vm_compute; reflexivity. Qed.

Lemma unsafe_rune_high (r : N) : (128 ≤ r)%N → regexp.unsafe_rune r = true.
Proof.
  intros H. unfold regexp.unsafe_rune, regexp.word_rune.
  apply negb_true_iff.
  repeat match goal with
         | |- context [(?a <=? ?b)%N] => destruct (N.leb_spec a b)
         | |- context [(?a =? ?b)%N] => destruct (N.eqb_spec a b)
         end; simpl; try reflexivity; lia.
Qed.

Lemma decode_ascii (c : ascii) (t : string) :
  is_ascii c = true →
  utf8.DecodeRuneInString (String c t) = (N_of_ascii c, 1).
Proof. unfold is_ascii. intros H. simpl. now rewrite H. Qed.

Ltac mod_lia :=
  repeat match goal with
         | |- context [(?x mod ?k)%N] =>
             let q := fresh "q" in
             let r := fresh "r" in
             pose proof (N.div_mod x k ltac:(lia));
             pose proof (N.mod_lt x k ltac:(lia));
             set (r := (x mod k)%N) in *; set (q := (x / k)%N) in *;
             clearbody r q
         end;
  lia.

Lemma decode_high (c : ascii) (t : string) :
  is_ascii c = false →
  (128 ≤ fst (utf8.DecodeRuneInString (String c t)))%N.
Proof.
  unfold is_ascii. intros H. unfold utf8.DecodeRuneInString. rewrite H.
  apply N.ltb_ge in H.
  assert (Hc : (N_of_ascii c < 256)%N) by apply N_ascii_bounded.
  destruct (utf8.first (N_of_ascii c)) as [[[sz lo] hi]|] eqn:Hf;
    [|simpl; unfold utf8.RuneError; lia].
  unfold utf8.first in Hf.
  repeat match type of Hf with
         | context [(?a <? ?b)%N] => destruct (N.ltb_spec a b)
         | context [(?a <=? ?b)%N] => destruct (N.leb_spec a b)
         | context [(?a =? ?b)%N] => destruct (N.eqb_spec a b)
         end; inversion Hf; subst; clear Hf.
  all: unfold utf8.outside, utf8.RuneError.
  all: repeat match goal with
         | |- context [(?a <? ?b)%N] => destruct (N.ltb_spec a b)
         | |- context [match ?s with EmptyString => _ | String _ _ => _ end] => destruct s
         | |- context [(?a <? ?b)%nat] => destruct (a <? b)%nat
         | _ => progress simpl
         end; try lia.
  all: mod_lia.
Qed.

Lemma all_bytes_cons p c s : all_bytes p (String c s) = p c && all_bytes p s.
Proof. reflexivity. Qed.

Lemma all_bytes_append p s t :
  all_bytes p (s +:+ t) = all_bytes p s && all_bytes p t.
Proof.
  induction s as [|c s IH]; [reflexivity|].
  simpl. rewrite IH. now rewrite andb_assoc.
Qed.

Lemma decode_width (c : ascii) (t : string) :
  (1 ≤ snd (utf8.DecodeRuneInString (String c t)) ≤ String.length (String c t))%nat.
Proof.
  unfold utf8.DecodeRuneInString.
  destruct (N_of_ascii c <? 128)%N; [simpl; lia|].
  destruct (utf8.first (N_of_ascii c)) as [[[sz lo] hi]|]; [|simpl; lia].
  repeat match goal with
         | |- context [if ?b then _ else _] => destruct b
         | |- context [match ?s with EmptyString => _ | String _ _ => _ end] =>
             destruct s
         end; simpl; lia.
Qed.

Lemma drop_length (n : nat) (s : string) :
  String.length (strings.drop n s) = (String.length s - n)%nat.
Proof.
  revert s. induction n as [|n IH]; intros [|c s]; simpl; try lia. apply IH.
Qed.

Lemma replace_loop_step (fuel : nat) (c : ascii) (t repl : string) :
  regexp.replace_loop (S fuel) (String c t) repl
  = (if regexp.unsafe_rune (fst (utf8.DecodeRuneInString (String c t)))
     then repl
     else substring 0 (snd (utf8.DecodeRuneInString (String c t))) (String c t))
    +:+ regexp.replace_loop fuel
          (strings.drop (snd (utf8.DecodeRuneInString (String c t))) (String c t))
          repl.
Proof.
  cbn [regexp.replace_loop].
  destruct (utf8.DecodeRuneInString (String c t)) as [r w]. reflexivity.
Qed.

(** More fuel than the length of the input changes nothing. *)
Lemma replace_loop_fuel (repl : string) (n : nat) :
  ∀ fuel1 fuel2 src,
    (String.length src ≤ n)%nat →
    (String.length src ≤ fuel1)%nat → (String.length src ≤ fuel2)%nat →
    regexp.replace_loop fuel1 src repl = regexp.replace_loop fuel2 src repl.
Proof.
  induction n as [|n IH]; intros fuel1 fuel2 [|c t] Hn H1 H2;
    try (destruct fuel1, fuel2; reflexivity); simpl in Hn; try lia.
  destruct fuel1 as [|fuel1]; [simpl in H1; lia|].
  destruct fuel2 as [|fuel2]; [simpl in H2; lia|].
  rewrite !replace_loop_step. f_equal.
  pose proof (decode_width c t) as Hw.
  pose proof (drop_length (snd (utf8.DecodeRuneInString (String c t))) (String c t))
    as Hd.
  remember (snd (utf8.DecodeRuneInString (String c t))) as w.
  remember (strings.drop w (String c t)) as rest.
  simpl String.length in *.
  apply IH; lia.
Qed.

Lemma ReplaceAllString_enough_fuel (src repl : string) (fuel : nat) :
  (String.length src ≤ fuel)%nat →
  regexp.replace_loop fuel src repl = regexp.ReplaceAllString src repl.
Proof.
  intros H. unfold regexp.ReplaceAllString.
  apply (replace_loop_fuel repl (String.length src)); lia.
Qed.

Lemma substring_one (c : ascii) (t : string) :
  substring 0 1 (String c t) = String c EmptyString.
Proof. simpl. now destruct t. Qed.

(** On ASCII input the replacement works byte by byte. *)
Lemma ReplaceAllString_ascii (s : string) :
  all_bytes is_ascii s = true →
  regexp.ReplaceAllString s "_" = map_bytes replace_byte s.
Proof.
  unfold regexp.ReplaceAllString.
  induction s as [|c t IH]; intros Hs; [reflexivity|].
  rewrite all_bytes_cons in Hs. apply andb_true_iff in Hs as [Hc Ht].
  simpl String.length. rewrite replace_loop_step, (decode_ascii c t Hc).
  simpl fst. simpl snd. rewrite unsafe_rune_byte, substring_one.
  simpl strings.drop. rewrite (IH Ht). simpl map_bytes. unfold replace_byte at 2.
  destruct (safe_byte c); reflexivity.
Qed.

(** Whatever the input, the output holds only bytes of [[A-Za-z0-9_.-]]. *)
Lemma replace_loop_safe (fuel : nat) :
  ∀ src, all_bytes safe_byte (regexp.replace_loop fuel src "_") = true.
Proof.
  induction fuel as [|fuel IH]; intros [|c t]; try reflexivity.
  rewrite replace_loop_step, all_bytes_append, IH, andb_true_r.
  destruct (regexp.unsafe_rune _) eqn:Hu; [reflexivity|].
  destruct (is_ascii c) eqn:Hc.
  - rewrite (decode_ascii c t Hc) in *. simpl in Hu. simpl snd.
    rewrite unsafe_rune_byte in Hu. apply negb_false_iff in Hu.
    rewrite substring_one, all_bytes_cons, Hu. reflexivity.
  - rewrite (unsafe_rune_high _ (decode_high c t Hc)) in Hu. discriminate.
Qed.

Lemma TrimLeft_all_bytes p cutset (s : string) :
  all_bytes p s = true → all_bytes p (strings.TrimLeft s cutset) = true.
Proof.
  induction s as [|c s IH]; intros H; [reflexivity|]. simpl.
  destruct (strings.has_byte cutset c); [|exact H].
  rewrite all_bytes_cons in H. apply andb_true_iff in H as [_ H]. now apply IH.
Qed.

Lemma TrimRight_all_bytes p cutset (s : string) :
  all_bytes p s = true → all_bytes p (strings.TrimRight s cutset) = true.
Proof.
  induction s as [|c s IH]; intros H; [reflexivity|]. simpl.
  rewrite all_bytes_cons in H. apply andb_true_iff in H as [Hc H].
  specialize (IH H).
  destruct (strings.TrimRight s cutset) as [|d t].
  - destruct (strings.has_byte cutset c); [reflexivity|].
    now rewrite all_bytes_cons, Hc.
  - now rewrite all_bytes_cons, Hc, IH.
Qed.

Lemma Trim_all_bytes p cutset (s : string) :
  all_bytes p s = true → all_bytes p (strings.Trim s cutset) = true.
Proof. intros H. now apply TrimLeft_all_bytes, TrimRight_all_bytes. Qed.

Lemma append_cons (c : ascii) (a x : string) :
  String c a +:+ x = String c (a +:+ x).
Proof. reflexivity. Qed.

Lemma TrimLeft_split cutset (s : string) :
  ∃ a, s = a +:+ strings.TrimLeft s cutset
       ∧ all_bytes (strings.has_byte cutset) a = true
       ∧ not_in cutset (first_byte (strings.TrimLeft s cutset)).
Proof.
  induction s as [|c s (a & Hs & Ha & Hf)]; [now exists ""|]. simpl.
  destruct (strings.has_byte cutset c) eqn:Hc.
  - exists (String c a). split; [rewrite append_cons; f_equal; exact Hs|].
    split; [simpl; now rewrite Hc | exact Hf].
  - exists "". split; [reflexivity|]. split; [reflexivity | exact Hc].
Qed.

Lemma append_nil_l (x : string) : "" +:+ x = x.
Proof. reflexivity. Qed.

Lemma TrimRight_split cutset (s : string) :
  ∃ b, s = strings.TrimRight s cutset +:+ b
       ∧ all_bytes (strings.has_byte cutset) b = true
       ∧ not_in cutset (last_byte (strings.TrimRight s cutset)).
Proof.
  induction s as [|c s (b & Hs & Hb & Hl)]; [now exists ""|]. simpl.
  destruct (strings.TrimRight s cutset) as [|d t] eqn:Ht.
  - rewrite append_nil_l in Hs.
    destruct (strings.has_byte cutset c) eqn:Hc.
    + exists (String c b). rewrite append_nil_l.
      split; [f_equal; exact Hs|]. split; [simpl; now rewrite Hc | exact I].
    + exists b. rewrite append_cons, append_nil_l.
      split; [f_equal; exact Hs|]. split; [exact Hb | exact Hc].
  - exists b. rewrite append_cons.
    split; [f_equal; exact Hs|]. split; [exact Hb | exact Hl].
Qed.

Lemma last_byte_append_nonempty (a : string) (c : ascii) (t : string) :
  last_byte (a +:+ String c t) = last_byte (String c t).
Proof.
  induction a as [|d a IH]; [reflexivity|].
  rewrite append_cons. change (last_byte (String d (a +:+ String c t)))
    with (match a +:+ String c t with
          | EmptyString => Some d
          | String _ _ => last_byte (a +:+ String c t)
          end).
  destruct (a +:+ String c t) eqn:Heq; [destruct a; discriminate|].
  exact IH.
Qed.

(** [strings.Trim] removes a run of cutset bytes at either end, and
    what is left neither starts nor ends with a cutset byte. *)
Lemma Trim_spec cutset (s : string) :
  ∃ a b, s = a +:+ strings.Trim s cutset +:+ b
         ∧ all_bytes (strings.has_byte cutset) a = true
         ∧ all_bytes (strings.has_byte cutset) b = true
         ∧ not_in cutset (first_byte (strings.Trim s cutset))
         ∧ not_in cutset (last_byte (strings.Trim s cutset)).
Proof.
  destruct (TrimRight_split cutset s) as (b & Hs & Hb & Hl).
  destruct (TrimLeft_split cutset (strings.TrimRight s cutset))
    as (a & Hr & Ha & Hf).
  exists a, b. unfold strings.Trim. repeat split; try assumption.
  - rewrite Hs at 1. rewrite Hr at 1.
    clear. induction a as [|c a IH]; [reflexivity|].
    rewrite !append_cons. now rewrite IH.
  - destruct (strings.TrimLeft (strings.TrimRight s cutset) cutset)
      as [|c t] eqn:Ht; [exact I|].
    rewrite Hr, last_byte_append_nonempty in Hl. exact Hl.
Qed.

Lemma lower_byte_safe (c : ascii) :
  safe_byte c = true → lower_safe_byte (strings.lower_byte c) = true.
Proof. destruct c as [[] [] [] [] [] [] [] []]; vm_compute; intros H; congruence. Qed.

Lemma safe_byte_ascii (c : ascii) : safe_byte c = true → is_ascii c = true.
Proof. destruct c as [[] [] [] [] [] [] [] []]; vm_compute; intros H; congruence. Qed.

Lemma all_bytes_impl (p q : ascii → bool) (s : string) :
  (∀ c, p c = true → q c = true) → all_bytes p s = true → all_bytes q s = true.
Proof.
  intros Hpq. induction s as [|c s IH]; [reflexivity|]. simpl.
  intros H. apply andb_true_iff in H as [Hc Hs].
  now rewrite (Hpq c Hc), (IH Hs).
Qed.

Lemma ToLower_safe (s : string) :
  all_bytes safe_byte s = true →
  all_bytes lower_safe_byte (strings.ToLower s) = true.
Proof.
  induction s as [|c s IH]; [reflexivity|]. simpl.
  intros H. apply andb_true_iff in H as [Hc Hs].
  now rewrite (lower_byte_safe c Hc), (IH Hs).
Qed.

Lemma QueryUnescape_plain (s : string) :
  all_bytes plain_byte s = true → url.QueryUnescape s = (s, None).
Proof.
  intros H. unfold url.QueryUnescape.
  assert (Hc : url.unescape_check s = None ∧ url.unescape_write s = s).
  { induction s as [|c s IH]; [now split|].
    simpl in H. apply andb_true_iff in H as [Hc Hs].
    destruct (IH Hs) as [IH1 IH2].
    unfold plain_byte in Hc. apply negb_true_iff, orb_false_iff in Hc as [Hp Hq].
    apply Ascii.eqb_neq in Hp, Hq.
    destruct c as [[] [] [] [] [] [] [] []]; try congruence;
      simpl; rewrite ?IH1, ?IH2; split; reflexivity. }
  destruct Hc as [-> ->]. reflexivity.
Qed.

(** ** sanitizeFileNameFromURL *)

Section SanitizeFacts.
Context (L : Lib).

Lemma sanitize_parse_error rawURL err :
  url_Parse L rawURL = Err err →
  value (sanitizeFileNameFromURL L rawURL) = "invalid_filename".
Proof. intros H. unfold sanitizeFileNameFromURL. now rewrite H. Qed.

Lemma sanitize_parsed rawURL u :
  url_Parse L rawURL = Ok u →
  value (sanitizeFileNameFromURL L rawURL)
  = sanitized_as_specified (fst (url.QueryUnescape (path.Base (url.Path u)))).
Proof.
  intros H. unfold sanitizeFileNameFromURL, sanitized_as_specified.
  rewrite H. destruct (url.QueryUnescape _) as [name err]. simpl.
  rewrite ToLower_eqb_empty.
  destruct (String.eqb _ ""); reflexivity.
Qed.

End SanitizeFacts.

(** The sanitised name is made of bytes of [[a-z0-9_.-]] only; in
    particular [strings.ToLower] is applied to an ASCII string. *)
Lemma sanitizeFileNameFromURL_safe (L : Lib) (rawURL : string) :
  all_bytes lower_safe_byte (value (sanitizeFileNameFromURL L rawURL)) = true.
Proof.
  unfold sanitizeFileNameFromURL.
  destruct (url_Parse L rawURL) as [u|err]; [|reflexivity].
  destruct (url.QueryUnescape _) as [name err]. simpl.
  destruct (String.eqb _ ""); [reflexivity|]. simpl.
  apply ToLower_safe, Trim_all_bytes, replace_loop_safe.
Qed.

(** On a base name without [%] and [+] the result is as the claim
    states it. *)
Lemma sanitizeFileNameFromURL_plain (L : Lib) (rawURL : string) (u : url.URL) :
  url_Parse L rawURL = Ok u →
  all_bytes plain_byte (path.Base (url.Path u)) = true →
  value (sanitizeFileNameFromURL L rawURL)
  = sanitized_as_specified (path.Base (url.Path u)).
Proof.
  intros Hu Hplain.
  unfold sanitizeFileNameFromURL, sanitized_as_specified. rewrite Hu.
  rewrite (QueryUnescape_plain _ Hplain). simpl.
  destruct (strings.Trim _ "_"); reflexivity.
Qed.

(** C2, amended.  A URL that [url.Parse] rejects is named
    [invalid_filename].  For a URL it accepts, the base name of the
    parsed path is unescaped once more ([%XX] to a byte, [+] to a space);
    when that succeeds, the result is the unescaped name with every
    character outside [[A-Za-z0-9_.-]] replaced by ['_'], leading and
    trailing ['_'] trimmed, lowercased, and [downloaded_file] if that is
    empty. *)
Theorem sanitizeFileNameFromURL_amended (L : Lib) (rawURL : string) :
  (∀ err, url_Parse L rawURL = Err err →
          value (sanitizeFileNameFromURL L rawURL) = "invalid_filename")
  ∧ (∀ u name,
        url_Parse L rawURL = Ok u →
        url.QueryUnescape (path.Base (url.Path u)) = (name, None) →
        value (sanitizeFileNameFromURL L rawURL) = sanitized_as_specified name).
Proof.
  split.
  - intros err H. now apply sanitize_parse_error with err.
  - intros u name Hu Hname.
    rewrite (sanitize_parsed L rawURL u Hu), Hname. reflexivity.
Qed.

Lemma sanitizeFileNameFromURL_amended_witness :
  value (sanitizeFileNameFromURL Examples.lib Examples.plain_url)
  = sanitized_as_specified "My Sheet.PDF"
  ∧ sanitized_as_specified "My Sheet.PDF" = "my_sheet.pdf".
Proof.
  split.
  - apply (proj2 (sanitizeFileNameFromURL_amended Examples.lib Examples.plain_url)
             {| url.Path := "/sds/My Sheet.PDF" |} "My Sheet.PDF");
      reflexivity.
  - reflexivity.
Defined.

(** C2 as stated fails: the base name [a%41.pdf] of a parsed path is
    unescaped a second time before the replacement, and a URL that does
    not parse is named [invalid_filename]. *)
Lemma sanitizeFileNameFromURL_claim_counterexample :
  (url_Parse Examples.lib Examples.escaped_url
   = Ok {| url.Path := "/sds/a%41.pdf" |}
   ∧ path.Base "/sds/a%41.pdf" = "a%41.pdf"
   ∧ sanitized_as_specified "a%41.pdf" = "a_41.pdf"
   ∧ value (sanitizeFileNameFromURL Examples.lib Examples.escaped_url)
     = "aa.pdf"
   ∧ value (sanitizeFileNameFromURL Examples.lib Examples.escaped_url)
     ≠ sanitized_as_specified (path.Base "/sds/a%41.pdf"))
  ∧ (url_Parse Examples.lib Examples.broken_url = Err "invalid URL escape"
     ∧ value (sanitizeFileNameFromURL Examples.lib Examples.broken_url)
       = "invalid_filename"
     ∧ sanitized_as_specified (path.Base Examples.broken_url) = "zz.pdf").
Proof. vm_compute. repeat split; (reflexivity || discriminate). Qed.

(** C10.  [sanitizeFileNameFromURL] never returns the empty string, so
    the test [filename == ""] in [downloadPDF] is false on every call
    and the derived name is the sanitised name, with [.pdf] appended
    when it lacks that suffix. *)
Theorem sanitizeFileNameFromURL_nonempty (L : Lib) (rawURL : string) :
  value (sanitizeFileNameFromURL L rawURL) ≠ ""
  ∧ String.eqb (value (sanitizeFileNameFromURL L rawURL)) "" = false
  ∧ ∀ finalURL,
      MainGo.derive_filename (value (sanitizeFileNameFromURL L rawURL)) finalURL
      = let filename := value (sanitizeFileNameFromURL L rawURL) in
        if strings.HasSuffix (strings.ToLower filename) ".pdf" then filename
        else filename +:+ ".pdf".
Proof.
  assert (Hne : value (sanitizeFileNameFromURL L rawURL) ≠ "").
  { unfold sanitizeFileNameFromURL.
    destruct (url_Parse L rawURL) as [u|err]; [|discriminate].
    destruct (url.QueryUnescape _) as [name err]. simpl.
    destruct (String.eqb _ "") eqn:Hs; [discriminate|].
    apply ToLower_nonempty. now apply String.eqb_neq. }
  split; [exact Hne|]. split; [now apply eqb_empty_false|].
  intros finalURL. unfold MainGo.derive_filename. simpl.
  rewrite (eqb_empty_false _ Hne).
  destruct (strings.HasSuffix _ ".pdf"); reflexivity.
Qed.

(** ** parseHTML *)

Lemma collect_pdf_link_fold (sel : list html.Node) :
  ∀ (acc log : list string),
    fst (fold_left collect_pdf_link sel (acc, log))
    = acc ++ List.filter pdf_target
                (omap (fun n => goquery.Attr n "href") sel).
Proof.
  induction sel as [|n sel IH]; intros acc log; simpl.
  - now rewrite app_nil_r.
  - destruct (goquery.Attr n "href") as [href|] eqn:Hattr; simpl.
    + unfold pdf_target at 1.
      destruct (url.QueryUnescape href) as [decoded [e|]]; simpl.
      * apply IH.
      * destruct (strings.HasSuffix _ ".pdf"); simpl.
        -- rewrite IH, <- app_assoc. reflexivity.
        -- apply IH.
    + apply IH.
Qed.

(** C1, amended.  [parseHTML] returns, in document order, exactly the
    [href] values of the anchors whose unescaped form is well formed
    and, lowercased, ends in [.pdf]; each is returned as written in the
    document, not unescaped.  A document that does not parse yields no
    link. *)
Theorem parseHTML_amended (L : Lib) (htmlContent : string) :
  value (parseHTML L htmlContent)
  = match goquery_NewDocumentFromReader L htmlContent with
    | Ok doc => List.filter pdf_target (anchor_hrefs doc)
    | Err _ => []
    end.
Proof.
  unfold parseHTML, anchor_hrefs, goquery.Each, value.
  destruct (goquery_NewDocumentFromReader L htmlContent) as [doc|err];
    [|reflexivity].
  apply (collect_pdf_link_fold _ [] []).
Qed.

(** C1 as stated fails in both directions: [/sds/a%2Epdf] is returned
    although its own lowercase form does not end in [.pdf], and the
    anchor target [/sds/100%.pdf], which does, is left out. *)
Lemma parseHTML_claim_counterexample :
  goquery_NewDocumentFromReader Examples.lib Examples.listing_html
  = Ok Examples.listing_doc
  ∧ anchor_hrefs Examples.listing_doc
    = ["/sds/a%2Epdf"; "/sds/100%.pdf"; "/sds/c.PDF"; "/about"]
  ∧ value (parseHTML Examples.lib Examples.listing_html)
    = ["/sds/a%2Epdf"; "/sds/c.PDF"]
  ∧ strings.HasSuffix (strings.ToLower "/sds/a%2Epdf") ".pdf" = false
  ∧ strings.HasSuffix (strings.ToLower "/sds/100%.pdf") ".pdf" = true.
Proof. vm_compute. repeat split; reflexivity. Qed.

(** ** removeDuplicatesFromSlice *)

Lemma map_get_insert (check : gmap string bool) (seen : list string)
  (a x : string) :
  (∀ y, map_get check y = true ↔ y ∈ seen) →
  map_get (<[a := true]> check) x = true ↔ x ∈ a :: seen.
Proof.
  intros Hinv. unfold map_get. rewrite elem_of_cons.
  destruct (decide (a = x)) as [->|Hne].
  - rewrite lookup_insert_eq. simpl. tauto.
  - rewrite lookup_insert_ne by exact Hne.
    specialize (Hinv x). unfold map_get in Hinv. rewrite Hinv.
    split; [tauto|]. intros [Heq|Hin]; [congruence | exact Hin].
Qed.

Lemma dedup_fold (l : list string) :
  ∀ (check : gmap string bool) (out seen : list string),
    (∀ x, map_get check x = true ↔ x ∈ seen) →
    snd (fold_left dedup_step l (check, out)) = out ++ keep_unseen seen l.
Proof.
  induction l as [|a l IH]; intros check out seen Hinv; simpl.
  - now rewrite app_nil_r.
  - destruct (map_get check a) eqn:Hget; simpl.
    + apply Hinv in Hget. rewrite decide_True by exact Hget.
      now apply IH.
    + assert (Hnot : a ∉ seen).
      { intros Hin. apply Hinv in Hin. congruence. }
      rewrite decide_False by exact Hnot.
      rewrite (IH _ _ (a :: seen)).
      * now rewrite <- app_assoc.
      * intros x. now apply map_get_insert.
Qed.

Lemma removeDuplicatesFromSlice_keep_unseen (slice : list string) :
  removeDuplicatesFromSlice slice = keep_unseen [] slice.
Proof.
  unfold removeDuplicatesFromSlice.
  rewrite (dedup_fold slice ∅ [] []); [reflexivity|].
  intros x. unfold map_get. rewrite lookup_empty. simpl.
  split; [discriminate|]. intros H. inversion H.
Qed.

Lemma elem_of_keep_unseen (l : list string) :
  ∀ seen x, x ∈ keep_unseen seen l ↔ x ∈ l ∧ x ∉ seen.
Proof.
  induction l as [|a l IH]; intros seen x; simpl.
  - split; [intros H; inversion H | intros [H _]; inversion H].
  - destruct (decide (a ∈ seen)) as [Hin|Hnin].
    + rewrite IH, elem_of_cons. split.
      * intros [Hx Hs]. split; [now right | exact Hs].
      * intros [[->|Hx] Hs]; [contradiction | now split].
    + rewrite !elem_of_cons, IH, elem_of_cons. split.
      * intros [->|[Hx Hs]]; [split; [now left | exact Hnin]|].
        split; [now right | tauto].
      * intros [[->|Hx] Hs]; [now left|].
        destruct (decide (x = a)) as [->|Hne]; [now left|].
        right. split; [exact Hx|]. intros [?|?]; contradiction.
Qed.

Lemma NoDup_keep_unseen (l : list string) :
  ∀ seen, NoDup (keep_unseen seen l).
Proof.
  induction l as [|a l IH]; intros seen; simpl.
  - constructor.
  - destruct (decide (a ∈ seen)); [apply IH|].
    constructor; [|apply IH].
    rewrite elem_of_keep_unseen, elem_of_cons. tauto.
Qed.

Lemma first_index_cons_ne (a x : string) (l : list string) :
  a ≠ x → first_index x (a :: l) = S <$> first_index x l.
Proof. intros Hne. simpl. now rewrite decide_False. Qed.

Lemma first_index_elem_of (x : string) (l : list string) :
  x ∈ l → ∃ k, first_index x l = Some k.
Proof.
  induction l as [|a l IH]; intros Hin; [inversion Hin|].
  simpl. destruct (decide (a = x)) as [|Hne]; [now exists 0|].
  apply elem_of_cons in Hin as [->|Hin]; [contradiction|].
  destruct (IH Hin) as [k Hk]. exists (S k). now rewrite Hk.
Qed.

Lemma keep_unseen_order (l : list string) :
  ∀ seen i j x y,
    keep_unseen seen l !! i = Some x →
    keep_unseen seen l !! j = Some y →
    i < j →
    ∃ i' j', first_index x l = Some i' ∧ first_index y l = Some j' ∧ i' < j'.
Proof.
  induction l as [|a l IH]; intros seen i j x y Hi Hj Hlt; simpl in *.
  - rewrite lookup_nil in Hi. discriminate.
  - destruct (decide (a ∈ seen)) as [Hin|Hnin].
    + assert (Hx : a ≠ x).
      { intros ->. apply list_elem_of_lookup_2, elem_of_keep_unseen in Hi.
        tauto. }
      assert (Hy : a ≠ y).
      { intros ->. apply list_elem_of_lookup_2, elem_of_keep_unseen in Hj.
        tauto. }
      destruct (IH seen i j x y Hi Hj Hlt) as (i' & j' & Hi' & Hj' & Hlt').
      exists (S i'), (S j').
      rewrite !decide_False by assumption. rewrite Hi', Hj'. simpl.
      repeat split; lia.
    + destruct j as [|j]; [lia|]. simpl in Hj.
      assert (Hy : a ≠ y).
      { intros ->. apply list_elem_of_lookup_2, elem_of_keep_unseen in Hj.
        rewrite elem_of_cons in Hj. tauto. }
      destruct i as [|i]; simpl in Hi.
      * injection Hi as ->.
        apply list_elem_of_lookup_2, elem_of_keep_unseen in Hj as [Hj _].
        destruct (first_index_elem_of y l Hj) as [k Hk].
        exists 0, (S k). rewrite decide_True by reflexivity.
        rewrite decide_False by assumption. rewrite Hk. simpl.
        repeat split; lia.
      * assert (Hx : a ≠ x).
        { intros ->. apply list_elem_of_lookup_2, elem_of_keep_unseen in Hi.
          rewrite elem_of_cons in Hi. tauto. }
        destruct (IH (a :: seen) i j x y Hi Hj ltac:(lia))
          as (i' & j' & Hi' & Hj' & Hlt').
        exists (S i'), (S j').
        rewrite !decide_False by assumption. rewrite Hi', Hj'. simpl.
        repeat split; lia.
Qed.

Lemma keep_unseen_NoDup (l : list string) :
  ∀ seen, NoDup l → (∀ x, x ∈ l → x ∉ seen) → keep_unseen seen l = l.
Proof.
  induction l as [|a l IH]; intros seen Hnd Hfresh; simpl; [reflexivity|].
  apply NoDup_cons in Hnd as [Ha Hnd].
  rewrite decide_False by (apply Hfresh; now left).
  f_equal. apply IH; [exact Hnd|].
  intros x Hx. rewrite elem_of_cons. intros [->|Hs]; [contradiction|].
  apply (Hfresh x); [now right | exact Hs].
Qed.

(** C5.  The result of [removeDuplicatesFromSlice] has no string twice,
    holds exactly the strings of the input, and lists them in the order
    of their first occurrences in the input. *)
Theorem removeDuplicatesFromSlice_spec (slice : list string) :
  NoDup (removeDuplicatesFromSlice slice)
  ∧ (∀ x, x ∈ removeDuplicatesFromSlice slice ↔ x ∈ slice)
  ∧ (∀ i j x y,
        removeDuplicatesFromSlice slice !! i = Some x →
        removeDuplicatesFromSlice slice !! j = Some y →
        i < j →
        ∃ i' j', first_index x slice = Some i'
                 ∧ first_index y slice = Some j' ∧ i' < j').
Proof.
  rewrite removeDuplicatesFromSlice_keep_unseen. split; [|split].
  - apply NoDup_keep_unseen.
  - intros x. rewrite elem_of_keep_unseen. split; [tauto|].
    intros H. split; [exact H|]. intros Hn. inversion Hn.
  - apply keep_unseen_order.
Qed.

(** C9.  [removeDuplicatesFromSlice] is idempotent. *)
Theorem removeDuplicatesFromSlice_idempotent (slice : list string) :
  removeDuplicatesFromSlice (removeDuplicatesFromSlice slice)
  = removeDuplicatesFromSlice slice.
Proof.
  rewrite (removeDuplicatesFromSlice_keep_unseen (removeDuplicatesFromSlice slice)).
  apply keep_unseen_NoDup.
  - rewrite removeDuplicatesFromSlice_keep_unseen. apply NoDup_keep_unseen.
  - intros x _ Hn. inversion Hn.
Qed.

(** ** Reasoning about calls *)

Lemma returns_ret {A} (a : A) w (Q : A → World → Prop) :
  Q a w → returns (ret a) w Q.
Proof. intros H. exists a, w. split; [reflexivity | exact H]. Qed.

Lemma returns_bind {A B} (m : M A) (k : A → M B) w (Q : B → World → Prop) :
  returns m w (fun a w1 => returns (k a) w1 Q) → returns (bind m k) w Q.
Proof.
  intros (a & w1 & Hm & b & w2 & Hk & HQ). exists b, w2.
  split; [|exact HQ]. unfold bind. now rewrite Hm.
Qed.

Lemma returns_emit e w (Q : unit → World → Prop) :
  Q tt (add_event e w) → returns (emit e) w Q.
Proof. intros H. exists tt, (add_event e w). split; [reflexivity | exact H]. Qed.

Lemma returns_get_fs w (Q : gmap string os.node → World → Prop) :
  Q (fs w) w → returns get_fs w Q.
Proof. intros H. exists (fs w), w. split; [reflexivity | exact H]. Qed.

Lemma returns_set_fs f w (Q : unit → World → Prop) :
  Q tt (with_fs (f (fs w)) w) → returns (set_fs f) w Q.
Proof.
  intros H. exists tt, (with_fs (f (fs w)) w). split; [reflexivity | exact H].
Qed.

Lemma log_lines_run (lines : list string) :
  ∀ w, log_lines lines w = Returned tt (add_log_lines lines w).
Proof.
  induction lines as [|l lines IH]; intros w.
  - destruct w; reflexivity.
  - simpl. unfold bind, log_Printf, emit. rewrite IH.
    unfold add_log_lines. simpl. now rewrite <- app_assoc.
Qed.

Lemma returns_run_logged {A} (x : Logged A) w (Q : A → World → Prop) :
  Q (value x) (add_log_lines (logs x) w) → returns (run_logged x) w Q.
Proof.
  intros H. exists (value x), (add_log_lines (logs x) w).
  split; [|exact H]. unfold run_logged, bind. now rewrite log_lines_run.
Qed.

Lemma exits_fatal {A} line w (Q : World → Prop) :
  Q (add_event (EvLog line) w) → exits (@log_Fatalln A line) w Q.
Proof.
  intros H. exists (add_event (EvLog line) w). split; [reflexivity | exact H].
Qed.

Lemma exits_bind {A B} (m : M A) (k : A → M B) w (Q : World → Prop) :
  returns m w (fun a w1 => exits (k a) w1 Q) → exits (bind m k) w Q.
Proof.
  intros (a & w1 & Hm & w2 & Hk & HQ). exists w2.
  split; [|exact HQ]. unfold bind. now rewrite Hm.
Qed.

(** Once a call has ended the process, nothing that follows it runs. *)
Lemma exits_then {A B} (m : M A) (k : A → M B) w (Q : World → Prop) :
  exits m w Q → exits (bind m k) w Q.
Proof.
  intros (w' & Hm & HQ). exists w'. split; [|exact HQ].
  unfold bind. now rewrite Hm.
Qed.

(** One step of symbolic execution of a call that returns. *)
Ltac run_step :=
  lazymatch goal with
  | |- returns (ret _) _ _ => apply returns_ret
  | |- returns (bind _ _) _ _ => apply returns_bind
  | |- returns (emit _) _ _ => apply returns_emit
  | |- returns get_fs _ _ => apply returns_get_fs
  | |- returns (set_fs _) _ _ => apply returns_set_fs
  | |- returns (run_logged _) _ _ => apply returns_run_logged
  | |- returns (defer_ _ _) _ _ => unfold defer_
  | |- returns (log_Printf _) _ _ => unfold log_Printf
  | |- returns wg_Done _ _ => unfold wg_Done
  | |- returns (os_MkdirAll _ _) _ _ => unfold os_MkdirAll
  | |- returns (fileExists _) _ _ => unfold fileExists
  | |- returns (http_Get _ _) _ _ => unfold http_Get
  | |- returns (Body_Close _ _) _ _ => unfold Body_Close
  | |- returns (os_Create _ _) _ _ => unfold os_Create
  | |- returns (file_Write _ _ _) _ _ => unfold file_Write
  | |- returns (file_Close _ _) _ _ => unfold file_Close
  | |- returns (io_Copy_file _ _ _ _) _ _ => unfold io_Copy_file
  | |- returns (io_Copy_buffer _ _) _ _ => unfold io_Copy_buffer
  | |- returns (os_OpenFile_append _ _) _ _ => unfold os_OpenFile_append
  | |- returns (os_ReadFile _ _) _ _ => unfold os_ReadFile
  | |- returns (match ?x with _ => _ end) _ _ => destruct x eqn:?
  | |- returns (let _ := _ in _) _ _ => lazy zeta
  end.

Ltac run := repeat run_step.

(** One step of symbolic execution of a call that ends the process. *)
Ltac exit_step :=
  lazymatch goal with
  | |- exits (log_Fatalln _) _ _ => apply exits_fatal
  | |- exits (bind _ _) _ _ => apply exits_bind
  | |- exits (match ?x with _ => _ end) _ _ => destruct x eqn:?
  end.

Ltac run_exit := repeat first [run_step | exit_step].

Ltac world := unfold add_event, with_fs, add_log_lines in *; simpl in *.

(** The events a leaf of the execution has put in front of [base]. *)
Ltac new_events t base :=
  lazymatch t with
  | base => constr:(@nil event)
  | ?e :: ?t' => let r := new_events t' base in constr:(e :: r)
  end.

(** Counting events. *)
Lemma count_app p (t1 t2 : list event) :
  count p (t1 ++ t2) = count p t1 + count p t2.
Proof. unfold count. now rewrite List.filter_app, length_app. Qed.

Lemma count_log_lines p (lines : list string) :
  (∀ line, p (EvLog line) = false) → count p (rev (map EvLog lines)) = 0.
Proof.
  intros Hp. induction lines as [|l lines IH]; [reflexivity|].
  simpl. rewrite count_app, IH. unfold count. simpl. now rewrite Hp.
Qed.

Lemma count_cons p (e : event) (t : list event) :
  count p (e :: t) = (if p e then 1 else 0) + count p t.
Proof. unfold count. simpl. destruct (p e); reflexivity. Qed.

Ltac count_events :=
  rewrite ?count_cons, ?count_app, ?count_log_lines by reflexivity;
  simpl; try lia.

Lemma write_outcome_ok E path data done :
  write_outcome E path data = (done, None) → done = data.
Proof.
  unfold write_outcome. destruct (write_fault E path) as [[n e]|].
  - destruct (n <? String.length data)%nat; intros H; inversion H; reflexivity.
  - intros H; inversion H; reflexivity.
Qed.

Lemma write_outcome_fault E path data n e :
  write_fault E path = Some (n, e) → (n < String.length data)%nat →
  snd (write_outcome E path data) = Some e.
Proof.
  intros Hf Hn. unfold write_outcome. rewrite Hf.
  apply Nat.ltb_lt in Hn. now rewrite Hn.
Qed.

Lemma mkdir_keeps_lookup (m : gmap string os.node) dir p c :
  m !! dir = None → m !! p = Some (os.File c) →
  <[dir := os.Dir]> m !! p = Some (os.File c).
Proof.
  intros Hd Hp. destruct (decide (dir = p)) as [->|Hne]; [congruence|].
  now rewrite lookup_insert_ne.
Qed.

Lemma same_files_refl w m t : m = fs w → same_files w {| fs := m; trace := t |}.
Proof. intros ->. intros p c. reflexivity. Qed.

Lemma same_files_mkdir w dir t :
  fs w !! dir = None →
  same_files w {| fs := <[dir := os.Dir]> (fs w); trace := t |}.
Proof.
  intros Hd p c. simpl. destruct (decide (dir = p)) as [->|Hne].
  - rewrite lookup_insert_eq, Hd. split; discriminate.
  - now rewrite lookup_insert_ne.
Qed.

Lemma status_ok (resp : Response) :
  negb (StatusCode resp =? 200)%Z = false → StatusCode resp = 200%Z.
Proof. intros H. apply negb_false_iff in H. now apply Z.eqb_eq. Qed.

(** ** downloadPDF *)

(** C7.  One call of [downloadPDF] sends at most one GET and creates at
    most one file; it always returns; when it returns [false] it has
    written a log line; and it returns [true] only if the request was
    answered, the status was 200, the file could be created and the body
    was read and written without error.  So every failure yields
    [false] after a single attempt. *)
Theorem downloadPDF_single_attempt (L : Lib) (E : Env)
  (finalURL outputDir : string) (w : World) :
  returns (MainGo.downloadPDF L E finalURL outputDir) w (fun saved w' =>
    (count is_get (trace w') ≤ count is_get (trace w) + 1)%nat
    ∧ (count is_create (trace w') ≤ count is_create (trace w) + 1)%nat
    ∧ (saved = false → (count is_log (trace w) < count is_log (trace w'))%nat)
    ∧ (saved = true →
       ∃ resp, http_get E finalURL = Ok resp
               ∧ StatusCode resp = 200%Z
               ∧ create_fault E (MainGo.target_path L finalURL outputDir) = None
               ∧ write_outcome E (MainGo.target_path L finalURL outputDir)
                   (Body resp) = (Body resp, None)
               ∧ BodyErr resp = None)).
Proof.
  unfold MainGo.downloadPDF, MainGo.target_path. run.
  all: world.
  all: repeat split; try (intros; discriminate); try count_events.
  all: intros _;
    match goal with
    | Hs : negb _ = false, Hw : write_outcome _ _ _ = _ |- ∃ r, Ok ?a = Ok r ∧ _ =>
        exists a; subst; apply status_ok in Hs;
        rewrite (write_outcome_ok _ _ _ _ Hw) in Hw
    end.
  all: repeat split; assumption.
Qed.

Ltac split_post := repeat match goal with |- _ ∧ _ => split end.

Ltac same_response :=
  repeat match goal with
         | H : Ok _ = Ok _ |- _ => injection H as H; subst
         | H : Err _ = Ok _ |- _ => discriminate H
         end.

Ltac contradict_status :=
  match goal with
  | Hs : negb (StatusCode ?r =? 200)%Z = false, Hn : StatusCode ?r ≠ 200%Z |- _ =>
      exfalso; apply Hn; now apply status_ok
  end.

(** C3, amended.  For a response whose status is not 200,
    [downloadPDF] returns [false] and creates no file.  The copy that
    inspects the content type does the same for a response whose content
    type is not [application/pdf]; the one in src/main.go does not look
    at the content type. *)
Theorem downloadPDF_rejected_response (L : Lib) (E : Env)
  (finalURL outputDir : string) (w : World) (resp : Response) :
  http_get E finalURL = Ok resp →
  (StatusCode resp ≠ 200%Z →
   returns (MainGo.downloadPDF L E finalURL outputDir) w (fun saved w' =>
     saved = false ∧ same_files w w'
     ∧ count is_create (trace w') = count is_create (trace w)))
  ∧ (StatusCode resp ≠ 200%Z ∨ ContentType resp ≠ "application/pdf" →
     returns (Checked.downloadPDF L E finalURL outputDir) w (fun saved w' =>
       saved = false ∧ fs w' = fs w
       ∧ count is_create (trace w') = count is_create (trace w))).
Proof.
  intros Hget. split.
  - intros Hstatus. unfold MainGo.downloadPDF. run.
    all: world; same_response; try contradict_status.
    all: split_post; try reflexivity; try count_events.
    all: first [ now apply same_files_refl | now apply same_files_mkdir ].
  - intros Hbad. unfold Checked.downloadPDF. run.
    all: world; same_response.
    all: try (destruct Hbad as [Hbad|Hbad];
              [ contradict_status
              | exfalso; apply Hbad;
                match goal with
                | H : negb (String.eqb _ _) = false |- _ =>
                    apply negb_false_iff in H; now apply String.eqb_eq in H
                end ]).
    all: repeat split; count_events.
Qed.

Lemma downloadPDF_rejected_response_witness :
  returns (MainGo.downloadPDF Examples.lib (Examples.serving Examples.not_found)
             Examples.plain_url "PDFs/") Examples.empty_world
    (fun saved w' => saved = false ∧ same_files Examples.empty_world w'
       ∧ count is_create (trace w') = count is_create (trace Examples.empty_world))
  ∧ returns (Checked.downloadPDF Examples.lib (Examples.serving Examples.html_page)
               Examples.plain_url "PDFs/") Examples.empty_world
      (fun saved w' => saved = false ∧ fs w' = fs Examples.empty_world
         ∧ count is_create (trace w') = count is_create (trace Examples.empty_world)).
Proof.
  split.
  - apply (proj1 (downloadPDF_rejected_response Examples.lib
                    (Examples.serving Examples.not_found) Examples.plain_url
                    "PDFs/" Examples.empty_world Examples.not_found eq_refl)).
    simpl. lia.
  - apply (proj2 (downloadPDF_rejected_response Examples.lib
                    (Examples.serving Examples.html_page) Examples.plain_url
                    "PDFs/" Examples.empty_world Examples.html_page eq_refl)).
    right. simpl. discriminate.
Defined.

(** C3 as stated fails for src/main.go: a response with status 200 and
    content type [text/html] is saved. *)
Lemma downloadPDF_content_type_counterexample :
  ∃ w',
    MainGo.downloadPDF Examples.lib (Examples.serving Examples.html_page)
      Examples.plain_url "PDFs/" Examples.empty_world
    = Returned true w'
    ∧ ContentType Examples.html_page = "text/html"
    ∧ fs Examples.empty_world !! "PDFs/my_sheet.pdf" = None
    ∧ fs w' !! "PDFs/my_sheet.pdf" = Some (os.File "<html>not a pdf</html>").
Proof. eexists. vm_compute. repeat split; reflexivity. Qed.

Ltac keep_lookup :=
  repeat match goal with
         | Hd : fs ?w !! ?d = None, Hp : fs ?w !! ?p = Some (os.File ?c),
           H : <[?d := os.Dir]> (fs ?w) !! ?p = _ |- _ =>
             rewrite (mkdir_keeps_lookup (fs w) d p c Hd Hp) in H
         end.

(** C4.  When a regular file is already at the path derived from the
    URL, [downloadPDF] returns [false], leaves every file as it was and
    sends no request.  This holds for the copy in src/main.go and for
    the copy that checks the content type. *)
Theorem downloadPDF_skips_existing (L : Lib) (E : Env)
  (finalURL outputDir : string) (w : World) (content : string) :
  (fs w !! MainGo.target_path L finalURL outputDir = Some (os.File content) →
   returns (MainGo.downloadPDF L E finalURL outputDir) w (fun saved w' =>
     saved = false ∧ same_files w w'
     ∧ fs w' !! MainGo.target_path L finalURL outputDir
       = Some (os.File content)
     ∧ count is_get (trace w') = count is_get (trace w)
     ∧ count is_create (trace w') = count is_create (trace w)))
  ∧ (fs w !! Checked.target_path L finalURL outputDir
     = Some (os.File content) →
     returns (Checked.downloadPDF L E finalURL outputDir) w (fun saved w' =>
       saved = false ∧ fs w' = fs w
       ∧ count is_get (trace w') = count is_get (trace w)
       ∧ count is_create (trace w') = count is_create (trace w))).
Proof.
  split; intros Hfile.
  - unfold MainGo.downloadPDF, MainGo.target_path in *. run.
    all: world; keep_lookup; try congruence.
    all: split_post; try reflexivity; try count_events.
    all: try first [ now apply same_files_refl | now apply same_files_mkdir ].
    all: try assumption.
    all: now apply mkdir_keeps_lookup.
  - unfold Checked.downloadPDF, Checked.target_path in *. run.
    all: world; try congruence.
    all: split_post; try reflexivity; count_events.
Qed.

Lemma downloadPDF_skips_existing_witness :
  returns (MainGo.downloadPDF Examples.lib (Examples.serving Examples.html_page)
             Examples.plain_url "PDFs/")
    (Examples.world_with "PDFs/my_sheet.pdf" "%PDF-1.4 old")
    (fun saved w' =>
       saved = false
       ∧ same_files (Examples.world_with "PDFs/my_sheet.pdf" "%PDF-1.4 old") w'
       ∧ fs w' !! MainGo.target_path Examples.lib Examples.plain_url "PDFs/"
         = Some (os.File "%PDF-1.4 old")
       ∧ count is_get (trace w') = 0
       ∧ count is_create (trace w') = 0).
Proof.
  apply (proj1 (downloadPDF_skips_existing Examples.lib
                  (Examples.serving Examples.html_page) Examples.plain_url
                  "PDFs/" (Examples.world_with "PDFs/my_sheet.pdf" "%PDF-1.4 old")
                  "%PDF-1.4 old")).
  vm_compute. reflexivity.
Defined.

Ltac give_new_events w :=
  match goal with
  | |- ∃ evs, ?t = evs ++ trace w ∧ _ =>
      let evs := new_events t (trace w) in
      exists evs; split; [reflexivity|]
  end.

Lemma buffered_download_run (E : Env) (finalURL filePath : string) (w : World) :
  returns (Buffered.download E finalURL filePath) w (fun saved w' =>
    ∃ evs, trace w' = evs ++ trace w
      ∧ created_after_read (rev evs) false = true
      ∧ ∀ resp, http_get E finalURL = Ok resp →
                BodyErr resp ≠ None ∨ Body resp = "" →
                saved = false ∧ fs w' = fs w ∧ count is_create evs = 0).
Proof.
  unfold Buffered.download. run.
  all: world; give_new_events w.
  all: split; [reflexivity|].
  all: intros resp Hresp Hbad; same_response.
  all: try (split_post; reflexivity).
  all: exfalso; destruct Hbad as [Hbad|Hbad]; [congruence|].
  all: rewrite Hbad in *; simpl in *; discriminate.
Qed.

(** C6.  In the buffering copies the body is read into memory before a
    file is created: in every run each creation of a file comes after
    the completed read.  If reading the body fails or the body is empty,
    [downloadPDF] returns [false], the disk is unchanged and no file was
    created, so no file is at the target path unless one was there
    before. *)
Theorem buffered_downloadPDF_no_partial_file (E : Env)
  (finalURL filePath : string) (w : World) :
  let post := fun (saved : bool) (w' : World) =>
    ∃ evs, trace w' = evs ++ trace w
      ∧ created_after_read (rev evs) false = true
      ∧ ∀ resp, http_get E finalURL = Ok resp →
                BodyErr resp ≠ None ∨ Body resp = "" →
                saved = false ∧ fs w' = fs w
                ∧ fs w' !! filePath = fs w !! filePath
                ∧ count is_create evs = 0 in
  returns (Buffered.downloadPDF E finalURL filePath) w post
  ∧ returns (Buffered.downloadPDF_sequential E finalURL filePath) w post.
Proof.
  intros post.
  destruct (buffered_download_run E finalURL filePath w)
    as (saved & w1 & Hrun & evs & Htrace & Horder & Hfail).
  split.
  - exists saved, (add_event EvWgDone w1). split.
    + unfold Buffered.downloadPDF, defer_, bind, wg_Done, emit, ret.
      rewrite Hrun. reflexivity.
    + exists (EvWgDone :: evs). simpl. rewrite Htrace. split; [reflexivity|].
      split.
      * clear -Horder. revert Horder. generalize false.
        induction (rev evs) as [|e t IH]; intros b H; simpl in *;
          [reflexivity|].
        destruct e; simpl in *; try (now apply IH).
        apply andb_true_iff in H as [-> H]. simpl. now apply IH.
      * intros resp Hresp Hbad.
        destruct (Hfail resp Hresp Hbad) as (-> & Hfs & Hcount).
        simpl in *. rewrite count_cons, Hcount, Hfs. simpl.
        repeat split; reflexivity.
  - exists saved, w1. split; [exact Hrun|].
    exists evs. split; [exact Htrace|]. split; [exact Horder|].
    intros resp Hresp Hbad.
    destruct (Hfail resp Hresp Hbad) as (-> & Hfs & Hcount).
    rewrite Hfs. repeat split; assumption || reflexivity.
Qed.

Lemma buffered_downloadPDF_no_partial_file_witness :
  ∃ w', Buffered.downloadPDF (Examples.serving Examples.broken_pdf)
          Examples.plain_url "PDFs/my_sheet.pdf" Examples.empty_world
        = Returned false w'
        ∧ fs w' = fs Examples.empty_world
        ∧ fs w' !! "PDFs/my_sheet.pdf" = None.
Proof.
  destruct (proj1 (buffered_downloadPDF_no_partial_file
                     (Examples.serving Examples.broken_pdf) Examples.plain_url
                     "PDFs/my_sheet.pdf" Examples.empty_world))
    as (saved & w' & Hrun & evs & Htrace & Horder & Hfail).
  assert (Hbroken : BodyErr Examples.broken_pdf ≠ None
                    ∨ Body Examples.broken_pdf = "")
    by (left; discriminate).
  destruct (Hfail Examples.broken_pdf eq_refl Hbroken)
    as (-> & Hfs & Hpath & _).
  exists w'. split; [exact Hrun|]. split; [exact Hfs|].
  rewrite Hpath. reflexivity.
Defined.

(** ** The listing file *)

Lemma appendAndWriteToFile_fatal (E : Env) (path content : string) (w : World) :
  open_fault E path ≠ None
  ∨ (∃ n err, write_fault E path = Some (n, err)
              ∧ (n < String.length (content +:+ newline))%nat)
  ∨ close_fault E path ≠ None →
  exits (MainGo.appendAndWriteToFile E path content) w logged_last.
Proof.
  intros Hfault. unfold MainGo.appendAndWriteToFile. run_exit.
  all: world; try (unfold logged_last; simpl; eauto; fail).
  all: exfalso; destruct Hfault as [H|[(cut & werr & Hw & Hn)|H]];
    try congruence.
  all: subst;
    match goal with
    | Ho : write_outcome _ _ _ = (_, None) |- _ =>
        pose proof (write_outcome_fault _ _ _ _ _ Hw Hn) as Hs;
        rewrite Ho in Hs; discriminate Hs
    end.
Qed.

Lemma readAFileAsString_fatal (E : Env) (path : string) (w : World) :
  read_fault E path ≠ None ∨ (∀ c, fs w !! path ≠ Some (os.File c)) →
  exits (MainGo.readAFileAsString E path) w logged_last.
Proof.
  intros Hfault. unfold MainGo.readAFileAsString. run_exit.
  all: world; try (unfold logged_last; simpl; eauto; fail).
  all: exfalso; destruct Hfault as [H|H]; [congruence|].
  all: eapply H; reflexivity.
Qed.

(** C8.  When opening, writing or closing the listing file fails,
    [appendAndWriteToFile] ends the whole process with status 1 after
    logging, and so does [readAFileAsString] when the file cannot be
    read: whatever [rest] of the program would follow is not run.
    [downloadPDF], in contrast, always returns to its caller. *)
Theorem listing_file_failure_is_fatal (L : Lib) (E : Env) (w : World) :
  (∀ path content B (rest : unit → M B),
      open_fault E path ≠ None
      ∨ (∃ n err, write_fault E path = Some (n, err)
                  ∧ (n < String.length (content +:+ newline))%nat)
      ∨ close_fault E path ≠ None →
      exits (bind (MainGo.appendAndWriteToFile E path content) rest) w
            logged_last)
  ∧ (∀ path B (rest : string → M B),
        read_fault E path ≠ None ∨ (∀ c, fs w !! path ≠ Some (os.File c)) →
        exits (bind (MainGo.readAFileAsString E path) rest) w logged_last)
  ∧ (∀ finalURL outputDir,
        returns (MainGo.downloadPDF L E finalURL outputDir) w
                (fun _ _ => True)).
Proof.
  split; [|split].
  - intros path content B rest Hfault.
    now apply exits_then, appendAndWriteToFile_fatal.
  - intros path B rest Hfault.
    now apply exits_then, readAFileAsString_fatal.
  - intros finalURL outputDir. unfold MainGo.downloadPDF. run.
    all: exact I.
Qed.

Lemma listing_file_failure_is_fatal_witness :
  exits (bind (MainGo.appendAndWriteToFile
                 (Examples.read_only_disk Examples.html_page)
                 "avient.com.html" "<html></html>")
              (fun _ => MainGo.readAFileAsString
                          (Examples.read_only_disk Examples.html_page)
                          "avient.com.html"))
        Examples.empty_world logged_last
  ∧ exits (bind (MainGo.readAFileAsString
                   (Examples.serving Examples.html_page) "avient.com.html")
                (fun content => ret (value (parseHTML Examples.lib content))))
          Examples.empty_world logged_last.
Proof.
  split.
  - apply (proj1 (listing_file_failure_is_fatal Examples.lib
                    (Examples.read_only_disk Examples.html_page)
                    Examples.empty_world)).
    left. simpl. discriminate.
  - apply (proj1 (proj2 (listing_file_failure_is_fatal Examples.lib
                           (Examples.serving Examples.html_page)
                           Examples.empty_world))).
    right. intros c. simpl. rewrite lookup_empty. discriminate.
Defined.

(** * Further properties of the program *)

(** ** File names *)

Lemma length_append (a b : string) :
  String.length (a +:+ b) = (String.length a + String.length b)%nat.
Proof.
  induction a as [|c a IH]; [reflexivity|].
  rewrite append_cons. simpl. now rewrite IH.
Qed.

Lemma drop_append (a b : string) : strings.drop (String.length a) (a +:+ b) = b.
Proof. induction a as [|c a IH]; [reflexivity|]. rewrite append_cons. exact IH. Qed.

Lemma HasSuffix_append (a b : string) : strings.HasSuffix (a +:+ b) b = true.
Proof.
  unfold strings.HasSuffix. rewrite length_append.
  replace (String.length a + String.length b - String.length b)%nat
    with (String.length a) by lia.
  rewrite drop_append, String.eqb_refl, andb_true_r.
  apply Nat.leb_le. lia.
Qed.

Lemma ToLower_append (a b : string) :
  strings.ToLower (a +:+ b) = strings.ToLower a +:+ strings.ToLower b.
Proof.
  induction a as [|c a IH]; [reflexivity|].
  rewrite append_cons. simpl. rewrite IH. reflexivity.
Qed.

(** X1.  The name src/main.go's [downloadPDF] saves under always ends in
    [.pdf], whatever the case of the letters; a name that has the
    extension already is kept as it is. *)
Theorem derive_filename_has_pdf_extension (sanitized finalURL : string) :
  strings.HasSuffix
    (strings.ToLower (MainGo.derive_filename sanitized finalURL)) ".pdf" = true
  ∧ (sanitized ≠ "" →
     strings.HasSuffix (strings.ToLower sanitized) ".pdf" = true →
     MainGo.derive_filename sanitized finalURL = sanitized).
Proof.
  unfold MainGo.derive_filename. split.
  - destruct (strings.HasSuffix (strings.ToLower (if String.eqb sanitized "" then _ else _)) ".pdf") eqn:Hs; simpl.
    + exact Hs.
    + rewrite ToLower_append. apply HasSuffix_append.
  - intros Hne Hs. rewrite (eqb_empty_false _ Hne), Hs. reflexivity.
Qed.

Lemma lower_byte_underscore (c : ascii) :
  strings.lower_byte c = "_"%char → c = "_"%char.
Proof. destruct c as [[] [] [] [] [] [] [] []]; vm_compute; congruence. Qed.

Lemma first_byte_ToLower (s : string) :
  first_byte (strings.ToLower s) = strings.lower_byte <$> first_byte s.
Proof. destruct s; reflexivity. Qed.

Lemma last_byte_ToLower (s : string) :
  last_byte (strings.ToLower s) = strings.lower_byte <$> last_byte s.
Proof.
  induction s as [|c s IH]; [reflexivity|].
  destruct s as [|d s]; [reflexivity|]. exact IH.
Qed.

Lemma not_underscore (b : option ascii) :
  not_in "_" b → strings.lower_byte <$> b ≠ Some "_"%char.
Proof.
  destruct b as [c|]; simpl; [|discriminate].
  intros Hc Heq. injection Heq as Heq.
  apply lower_byte_underscore in Heq. subst c. discriminate Hc.
Qed.

(** X2.  A sanitised name holds only bytes of [[a-z0-9_.-]] and neither
    starts nor ends with an underscore. *)
Theorem sanitizeFileNameFromURL_shape (L : Lib) (rawURL : string) :
  all_bytes lower_safe_byte (value (sanitizeFileNameFromURL L rawURL)) = true
  ∧ first_byte (value (sanitizeFileNameFromURL L rawURL)) ≠ Some "_"%char
  ∧ last_byte (value (sanitizeFileNameFromURL L rawURL)) ≠ Some "_"%char.
Proof.
  split; [apply sanitizeFileNameFromURL_safe|].
  unfold sanitizeFileNameFromURL.
  destruct (url_Parse L rawURL) as [u|err]; [|split; discriminate].
  destruct (url.QueryUnescape _) as [name err]. simpl.
  destruct (String.eqb _ ""); [split; discriminate|]. simpl.
  destruct (Trim_spec "_" (regexp.ReplaceAllString name "_"))
    as (a & b & _ & _ & _ & Hf & Hl).
  rewrite first_byte_ToLower, last_byte_ToLower.
  split; now apply not_underscore.
Qed.

Lemma returns_weaken {A} (m : M A) w (Q Q' : A → World → Prop) :
  returns m w Q → (∀ a w', Q a w' → Q' a w') → returns m w Q'.
Proof. intros (a & w' & Hm & HQ) Himp. exists a, w'. split; auto. Qed.

Lemma returns_then {A B} (m : M A) (k : A → M B) w
  (Q : A → World → Prop) (R : B → World → Prop) :
  returns m w Q → (∀ a w', Q a w' → returns (k a) w' R) →
  returns (bind m k) w R.
Proof.
  intros Hm Hk. apply returns_bind. eapply returns_weaken; [exact Hm|].
  exact Hk.
Qed.

Lemma write_outcome_no_fault E path data :
  write_fault E path = None → write_outcome E path data = (data, None).
Proof. intros H. unfold write_outcome. now rewrite H. Qed.

Lemma append_empty_r (s : string) : s +:+ "" = s.
Proof. induction s as [|c s IH]; [reflexivity|]. rewrite append_cons. now rewrite IH. Qed.

Lemma appendAndWriteToFile_run (E : Env) (path content old : string) (w : World) :
  no_file_faults E path → holds w path old →
  returns (MainGo.appendAndWriteToFile E path content) w (fun _ w' =>
    fs w' = <[path := os.File (old +:+ content +:+ newline)]> (fs w)
    ∧ ∃ evs, trace w' = evs ++ trace w ∧ count is_get evs = 0%nat).
Proof.
  intros (Ho & Hw & Hc) Hold. unfold MainGo.appendAndWriteToFile. run.
  all: try rewrite (write_outcome_no_fault E path _ Hw) in *.
  all: world; try congruence.
  all: destruct Hold as [Hold|[Hold ->]]; try congruence.
  all: repeat match goal with
              | H : (_, _) = (_, _) |- _ => injection H as ? ?; subst
              end; try congruence.
  all: split; [| give_new_events w; reflexivity].
  - rewrite Hold. simplify_eq. reflexivity.
  - rewrite lookup_insert_eq, insert_insert_eq. reflexivity.
Qed.

Lemma append_assoc (a b c : string) : (a +:+ b) +:+ c = a +:+ b +:+ c.
Proof.
  induction a as [|x a IH]; [reflexivity|]. rewrite !append_cons. now rewrite IH.
Qed.

(** X3.  Appending to the listing file and reading it back: with the
    file absent or a regular file and no fault, [readAFileAsString]
    after [appendAndWriteToFile] returns the old content, the appended
    content and a newline, and the file holds that text. *)
Theorem append_then_read_round_trip (E : Env) (path content old : string)
  (w : World) :
  no_file_faults E path → read_fault E path = None → holds w path old →
  returns (bind (MainGo.appendAndWriteToFile E path content)
                (fun _ => MainGo.readAFileAsString E path)) w
    (fun text w' =>
       text = old +:+ content +:+ newline
       ∧ fs w' = <[path := os.File text]> (fs w)).
Proof.
  intros Hf Hr Hold.
  eapply returns_then; [exact (appendAndWriteToFile_run E path content old w Hf Hold)|].
  intros [] w1 (Hfs & _). unfold MainGo.readAFileAsString. run.
  all: world; rewrite Hfs, lookup_insert_eq in *; simplify_eq.
  all: split; reflexivity.
Qed.

Lemma append_then_read_round_trip_witness :
  returns (bind (MainGo.appendAndWriteToFile (Examples.serving Examples.html_page)
                   "avient.com.html" "<p>two</p>")
                (fun _ => MainGo.readAFileAsString
                            (Examples.serving Examples.html_page)
                            "avient.com.html"))
    (Examples.world_with "avient.com.html" "<p>one</p>")
    (fun text w' =>
       text = "<p>one</p>" +:+ "<p>two</p>" +:+ newline
       ∧ fs w' = <["avient.com.html" := os.File text]>
                   (fs (Examples.world_with "avient.com.html" "<p>one</p>"))).
Proof.
  apply (append_then_read_round_trip (Examples.serving Examples.html_page)
           "avient.com.html" "<p>two</p>" "<p>one</p>"
           (Examples.world_with "avient.com.html" "<p>one</p>")).
  - repeat split.
  - reflexivity.
  - left. apply lookup_singleton_eq.
Defined.

Lemma getDataFromURL_run (E : Env) (uri : string) (resp : Response) (w : World) :
  fetched E uri resp →
  returns (MainGo.getDataFromURL E uri) w (fun body w' =>
    body = Body resp ∧ fs w' = fs w
    ∧ count is_get (trace w') = (count is_get (trace w) + 1)%nat).
Proof.
  intros (Hget & Hbody & Hclose). unfold MainGo.getDataFromURL. run.
  all: world; same_response; try congruence.
  split_post; try reflexivity. count_events.
Qed.

Lemma getDataFromURL_exit (E : Env) (uri : string) (w : World) :
  fetch_fails E uri →
  exits (MainGo.getDataFromURL E uri) w (fun w' =>
    fs w' = fs w
    ∧ count is_get (trace w') = (count is_get (trace w) + 1)%nat).
Proof.
  intros Hfail. unfold MainGo.getDataFromURL. run_exit.
  all: world.
  all: try (split; [reflexivity | count_events]).
  all: exfalso; destruct Hfail as [(err & H)|(resp & H & [Hb|Hc])];
    same_response; congruence.
Qed.

Lemma exits_weaken {A} (m : M A) w (Q Q' : World → Prop) :
  exits m w Q → (∀ w', Q w' → Q' w') → exits m w Q'.
Proof. intros (w' & Hm & HQ) Himp. exists w'. split; auto. Qed.

Lemma exits_after {A B} (m : M A) (k : A → M B) w
  (Q : A → World → Prop) (R : World → Prop) :
  returns m w Q → (∀ a w', Q a w' → exits (k a) w' R) →
  exits (bind m k) w R.
Proof.
  intros Hm Hk. apply exits_bind. eapply returns_weaken; [exact Hm|]. exact Hk.
Qed.

Lemma page_body_fetched (E : Env) (i : nat) (resp : Response) :
  fetched E (page_url i) resp → Body resp = page_body E i.
Proof. intros (H & _). unfold page_body. now rewrite H. Qed.

(** One turn of the page loop of src/main.go. *)
Lemma fetch_page_run (E : Env) (i : nat) (old : string) (w : World) :
  no_file_faults E MainGoListing.localLocation →
  holds w MainGoListing.localLocation old →
  (∃ resp, fetched E (page_url i) resp) →
  returns (MainGoListing.fetch_page E i) w (fun _ w' =>
    fs w' = <[MainGoListing.localLocation :=
                os.File (old +:+ page_body E i +:+ newline)]> (fs w)
    ∧ count is_get (trace w') = (count is_get (trace w) + 1)%nat).
Proof.
  intros Hf Hold (resp & Hresp). unfold MainGoListing.fetch_page.
  eapply returns_then; [exact (getDataFromURL_run E _ resp w Hresp)|].
  intros body w1 (-> & Hfs & Hget).
  assert (Hold1 : holds w1 MainGoListing.localLocation old).
  { unfold holds. now rewrite Hfs. }
  eapply returns_weaken;
    [exact (appendAndWriteToFile_run E _ (Body resp) old w1 Hf Hold1)|].
  intros [] w2 (Hfs2 & evs & Htrace & Hevs).
  rewrite Hfs2, Hfs, (page_body_fetched E i resp Hresp).
  split; [reflexivity|]. rewrite Htrace, count_app, Hevs, Hget. reflexivity.
Qed.

(** The page loop on a listing file that is there already. *)
Lemma fetch_pages_run (E : Env) (n : nat) :
  no_file_faults E MainGoListing.localLocation →
  ∀ i old w,
    fs w !! MainGoListing.localLocation = Some (os.File old) →
    (∀ j, (i ≤ j < i + n)%nat → ∃ resp, fetched E (page_url j) resp) →
    returns (for_count n i (MainGoListing.fetch_page E)) w (fun _ w' =>
      fs w' = <[MainGoListing.localLocation :=
                  os.File (old +:+ pages_text E n i)]> (fs w)
      ∧ count is_get (trace w') = (count is_get (trace w) + n)%nat).
Proof.
  intros Hf. induction n as [|n IH]; intros i old w Hold Hpages.
  - apply returns_ret. simpl. rewrite append_empty_r, Nat.add_0_r.
    split; [|reflexivity]. symmetry. now apply insert_id.
  - simpl for_count.
    eapply returns_then;
      [apply (fetch_page_run E i old w Hf (or_introl Hold)); apply Hpages; lia|].
    intros [] w1 (Hfs & Hget).
    eapply returns_weaken.
    + apply (IH (S i) (old +:+ page_body E i +:+ newline) w1).
      * rewrite Hfs. apply lookup_insert_eq.
      * intros j Hj. apply Hpages. lia.
    + intros [] w2 (Hfs2 & Hget2). simpl pages_text.
      rewrite Hfs2, Hfs, insert_insert_eq, Hget2, Hget, !append_assoc.
      split; [reflexivity | lia].
Qed.

(** The page loop from the start of a run. *)
Lemma fetch_pages_first_run (E : Env) (n i : nat) (old : string) (w : World) :
  no_file_faults E MainGoListing.localLocation →
  holds w MainGoListing.localLocation old →
  (∀ j, (i ≤ j < i + S n)%nat → ∃ resp, fetched E (page_url j) resp) →
  returns (for_count (S n) i (MainGoListing.fetch_page E)) w (fun _ w' =>
    fs w' = <[MainGoListing.localLocation :=
                os.File (old +:+ pages_text E (S n) i)]> (fs w)
    ∧ count is_get (trace w') = (count is_get (trace w) + S n)%nat).
Proof.
  intros Hf Hold Hpages. simpl for_count.
  eapply returns_then;
    [apply (fetch_page_run E i old w Hf Hold); apply Hpages; lia|].
  intros [] w1 (Hfs & Hget).
  eapply returns_weaken.
  - apply (fetch_pages_run E n Hf (S i) (old +:+ page_body E i +:+ newline) w1).
    + rewrite Hfs. apply lookup_insert_eq.
    + intros j Hj. apply Hpages. lia.
  - intros [] w2 (Hfs2 & Hget2). simpl pages_text.
    rewrite Hfs2, Hfs, insert_insert_eq, Hget2, Hget, !append_assoc.
    split; [reflexivity | lia].
Qed.

(** The page loop when page [k] is the first that cannot be fetched. *)
Lemma fetch_pages_exit (E : Env) (k : nat) :
  no_file_faults E MainGoListing.localLocation →
  fetch_fails E (page_url k) →
  ∀ n i old w,
    holds w MainGoListing.localLocation old →
    (i ≤ k < i + n)%nat →
    (∀ j, (i ≤ j < k)%nat → ∃ resp, fetched E (page_url j) resp) →
    exits (for_count n i (MainGoListing.fetch_page E)) w (fun w' =>
      fs w' = (if decide (k = i) then fs w
               else <[MainGoListing.localLocation :=
                        os.File (old +:+ pages_text E (k - i) i)]> (fs w))
      ∧ count is_get (trace w') = (count is_get (trace w) + (k - i) + 1)%nat).
Proof.
  intros Hf Hfail. induction n as [|n IH]; intros i old w Hold Hk Hpages; [lia|].
  simpl for_count. destruct (decide (k = i)) as [->|Hne].
  - apply exits_then. unfold MainGoListing.fetch_page. apply exits_then.
    eapply exits_weaken; [exact (getDataFromURL_exit E _ w Hfail)|].
    intros w' (Hfs & Hget). rewrite Nat.sub_diag, Nat.add_0_r.
    split; [exact Hfs | exact Hget].
  - eapply exits_after;
      [apply (fetch_page_run E i old w Hf Hold); apply Hpages; lia|].
    intros [] w1 (Hfs & Hget).
    eapply exits_weaken.
    + apply (IH (S i) (old +:+ page_body E i +:+ newline) w1).
      * left. rewrite Hfs. apply lookup_insert_eq.
      * lia.
      * intros j Hj. apply Hpages. lia.
    + intros w2 (Hfs2 & Hget2).
      replace (k - i)%nat with (S (k - S i)) by lia. simpl pages_text.
      split; [|rewrite Hget2, Hget; lia].
      rewrite Hfs2, Hfs. destruct (decide (k = S i)) as [->|Hne2].
      * rewrite Nat.sub_diag. simpl pages_text. now rewrite append_empty_r.
      * now rewrite insert_insert_eq, !append_assoc.
Qed.

Lemma parseHTML_links (L : Lib) (content : string) (doc : html.Node) :
  goquery_NewDocumentFromReader L content = Ok doc →
  value (parseHTML L content) = List.filter pdf_target (anchor_hrefs doc).
Proof.
  intros Hdoc. unfold parseHTML, anchor_hrefs, goquery.Each, value.
  rewrite Hdoc. apply (collect_pdf_link_fold _ [] []).
Qed.

(** X4.  With every listing page fetched, [main] of src/main.go reaches
    its download loop with the listing file holding pages 0 to 1000 in
    order, one per line, after 1001 requests; the links it goes on to
    download are the PDF targets of that text, each once. *)
Theorem main_listing_collects (L : Lib) (E : Env) (w : World) (old : string) :
  no_file_faults E MainGoListing.localLocation →
  read_fault E MainGoListing.localLocation = None →
  holds w MainGoListing.localLocation old →
  (∀ j, (j ≤ 1000)%nat → ∃ resp, fetched E (page_url j) resp) →
  returns (MainGoListing.main_listing L E) w (fun links w' =>
    let content := old +:+ pages_text E 1001 0 in
    fs w' = <[MainGoListing.localLocation := os.File content]> (fs w)
    ∧ count is_get (trace w') = (count is_get (trace w) + 1001)%nat
    ∧ ∃ l, links = Some l ∧ NoDup l
           ∧ ∀ doc, goquery_NewDocumentFromReader L content = Ok doc →
                    ∀ href, href ∈ l
                            ↔ href ∈ anchor_hrefs doc ∧ pdf_target href = true).
Proof.
  intros Hf Hr Hold Hpages. unfold MainGoListing.main_listing.
  eapply returns_then.
  { unfold MainGoListing.fetch_pages, for_range.
    change (S 1000 - 0)%nat with (S 1000).
    apply (fetch_pages_first_run E 1000 0 old w Hf Hold).
    intros j Hj. apply Hpages. lia. }
  intros [] w1 (Hfs & Hget). cbv zeta.
  remember (old +:+ pages_text E 1001 0) as content eqn:Hcontent.
  clear Hcontent. run. unfold MainGo.readAFileAsString. run.
  all: world; rewrite Hfs, lookup_insert_eq in *; simplify_eq.
  split; [reflexivity|]. split; [count_events|].
  eexists. split; [reflexivity|].
  rewrite removeDuplicatesFromSlice_keep_unseen.
  split; [apply NoDup_keep_unseen|].
  intros doc Hdoc href. rewrite elem_of_keep_unseen.
  rewrite (parseHTML_links L _ doc Hdoc), list_elem_of_In.
  rewrite List.filter_In, <- list_elem_of_In.
  split; [tauto|]. intros H. split; [exact H|]. intros Hn. inversion Hn.
Qed.

(** X5.  When page [k] is the first listing page that cannot be fetched,
    [main] of src/main.go ends the process there: pages before [k] are
    in the listing file, [k+1] requests were sent, no later page is
    asked for and no link is extracted or downloaded. *)
Theorem main_listing_stops_at_failed_page (L : Lib) (E : Env) (w : World)
  (old : string) (k : nat) :
  no_file_faults E MainGoListing.localLocation →
  holds w MainGoListing.localLocation old →
  (k ≤ 1000)%nat →
  fetch_fails E (page_url k) →
  (∀ j, (j < k)%nat → ∃ resp, fetched E (page_url j) resp) →
  exits (MainGoListing.main_listing L E) w (fun w' =>
    fs w' = (if decide (k = 0%nat) then fs w
             else <[MainGoListing.localLocation :=
                      os.File (old +:+ pages_text E k 0)]> (fs w))
    ∧ count is_get (trace w') = (count is_get (trace w) + k + 1)%nat).
Proof.
  intros Hf Hold Hk Hfail Hpages. unfold MainGoListing.main_listing.
  apply exits_then. unfold MainGoListing.fetch_pages, for_range.
  change (S 1000 - 0)%nat with (S 1000).
  eapply exits_weaken.
  - apply (fetch_pages_exit E k Hf Hfail (S 1000) 0 old w Hold); [lia|].
    intros j Hj. apply Hpages. lia.
  - intros w'. rewrite Nat.sub_0_r. tauto.
Qed.

Lemma main_listing_collects_witness :
  returns (MainGoListing.main_listing Examples.lib
             (Examples.serving Examples.html_page)) Examples.empty_world
    (fun links w' =>
       fs w' !! MainGoListing.localLocation
       = Some (os.File (pages_text (Examples.serving Examples.html_page) 1001 0))
       ∧ count is_get (trace w') = 1001%nat
       ∧ ∃ l, links = Some l ∧ NoDup l).
Proof.
  eapply returns_weaken.
  - apply (main_listing_collects Examples.lib
             (Examples.serving Examples.html_page) Examples.empty_world "").
    + repeat split.
    + reflexivity.
    + right. split; [apply lookup_empty | reflexivity].
    + intros j _. exists Examples.html_page. repeat split.
  - cbv zeta. intros links w' (Hfs & Hget & l & Hl & Hnd & _).
    rewrite Hfs, lookup_insert_eq. split; [reflexivity|].
    split; [exact Hget|]. exists l. split; assumption.
Defined.

Lemma main_listing_stops_at_failed_page_witness :
  exits (MainGoListing.main_listing Examples.lib MoreExamples.offline)
    Examples.empty_world
    (fun w' => fs w' = fs Examples.empty_world
               ∧ count is_get (trace w') = 1%nat).
Proof.
  apply (main_listing_stops_at_failed_page Examples.lib MoreExamples.offline
           Examples.empty_world "" 0).
  - repeat split.
  - right. split; [apply lookup_empty | reflexivity].
  - lia.
  - left. eexists. reflexivity.
  - intros j Hj. lia.
Defined.

Lemma downloadPDF_stream_run (L : Lib) (E : Env) (finalURL outputDir : string)
  (w : World) (resp : Response) :
  let target := MainGo.target_path L finalURL outputDir in
  directory_ready E w outputDir →
  target ≠ outputDir →
  fs w !! target = None →
  http_get E finalURL = Ok resp →
  StatusCode resp = 200%Z →
  create_fault E target = None →
  write_fault E target = None →
  returns (MainGo.downloadPDF L E finalURL outputDir) w (fun saved w' =>
    saved = bool_decide (BodyErr resp = None)
    ∧ fs w' = <[target := os.File (Body resp)]> (<[outputDir := os.Dir]> (fs w))
    ∧ count is_get (trace w') = (count is_get (trace w) + 1)%nat).
Proof.
  intros target Hdir Hne Habsent Hget Hstatus Hcreate Hwrite.
  unfold target, MainGo.target_path in *.
  unfold MainGo.downloadPDF. run.
  all: try rewrite (write_outcome_no_fault E _ _ Hwrite) in *.
  all: world; same_response.
  all: try rewrite lookup_insert_ne in * by congruence.
  all: try congruence.
  all: try (rewrite Hstatus in *; discriminate).
  all: try (destruct Hdir as [Hdir|[Hdir Hm]]; congruence).
  all: simplify_eq.
  all: rewrite ?lookup_insert_eq, ?insert_insert_eq.
  all: split_post; try (case_bool_decide; congruence); try count_events.
  all: try (rewrite (insert_id (fs w) outputDir os.Dir) by assumption);
    reflexivity.
Qed.

(** X6.  A download that goes through.  src/main.go's [downloadPDF]
    needs a 200 status only: whatever the content type, and even for an
    empty body, the body is then the content of the target file, and
    nothing else changes but the output directory being made. *)
Theorem streaming_downloadPDF_saves_body (L : Lib) (E : Env) (finalURL outputDir : string)
  (w : World) (resp : Response) :
  directory_ready E w outputDir →
  MainGo.target_path L finalURL outputDir ≠ outputDir →
  fs w !! MainGo.target_path L finalURL outputDir = None →
  http_get E finalURL = Ok resp →
  StatusCode resp = 200%Z →
  BodyErr resp = None →
  create_fault E (MainGo.target_path L finalURL outputDir) = None →
  write_fault E (MainGo.target_path L finalURL outputDir) = None →
  returns (MainGo.downloadPDF L E finalURL outputDir) w (fun saved w' =>
    saved = true
    ∧ fs w' = <[MainGo.target_path L finalURL outputDir := os.File (Body resp)]>
                (<[outputDir := os.Dir]> (fs w))).
Proof.
  intros Hdir Hne Habsent Hget Hstatus Hbody Hcreate Hwrite.
  eapply returns_weaken;
    [exact (downloadPDF_stream_run L E finalURL outputDir w resp
              Hdir Hne Habsent Hget Hstatus Hcreate Hwrite)|].
  intros saved w' (-> & Hfs & _). split; [|exact Hfs].
  case_bool_decide; congruence.
Qed.

Lemma streaming_downloadPDF_saves_body_witness :
  returns (MainGo.downloadPDF Examples.lib (Examples.serving Examples.html_page)
             Examples.plain_url "PDFs/") Examples.empty_world
    (fun saved w' =>
       saved = true
       ∧ fs w' !! "PDFs/my_sheet.pdf" = Some (os.File "<html>not a pdf</html>")).
Proof.
  eapply returns_weaken.
  - apply (streaming_downloadPDF_saves_body Examples.lib
             (Examples.serving Examples.html_page) Examples.plain_url "PDFs/"
             Examples.empty_world Examples.html_page).
    + right. split; [apply lookup_empty | reflexivity].
    + vm_compute. discriminate.
    + apply lookup_empty.
    + reflexivity.
    + reflexivity.
    + reflexivity.
    + reflexivity.
    + reflexivity.
  - intros saved w' (-> & Hfs). split; [reflexivity|].
    rewrite Hfs. apply lookup_insert_eq.
Defined.

Lemma downloadPDF_skip_run (L : Lib) (E : Env) (finalURL outputDir : string)
  (w : World) (content : string) :
  fs w !! MainGo.target_path L finalURL outputDir = Some (os.File content) →
  returns (MainGo.downloadPDF L E finalURL outputDir) w (fun saved w' =>
    saved = false
    ∧ fs w' !! MainGo.target_path L finalURL outputDir = Some (os.File content)
    ∧ count is_get (trace w') = count is_get (trace w)).
Proof.
  intros Hfile. unfold MainGo.downloadPDF, MainGo.target_path in *. run.
  all: world; keep_lookup; try congruence.
  all: split_post; try reflexivity; try count_events; try assumption.
  all: now apply mkdir_keeps_lookup.
Qed.

(** X7.  A transfer that breaks off.  src/main.go's [downloadPDF]
    creates the file before it copies, so the bytes that arrived stay
    on disk as the target file; the next call for the same URL finds
    that file, sends no request and leaves it as it is. *)
Theorem downloadPDF_partial_file_blocks_retry (L : Lib) (E : Env)
  (finalURL outputDir : string) (w : World) (resp : Response) (err : string) :
  directory_ready E w outputDir →
  MainGo.target_path L finalURL outputDir ≠ outputDir →
  fs w !! MainGo.target_path L finalURL outputDir = None →
  http_get E finalURL = Ok resp →
  StatusCode resp = 200%Z →
  BodyErr resp = Some err →
  create_fault E (MainGo.target_path L finalURL outputDir) = None →
  write_fault E (MainGo.target_path L finalURL outputDir) = None →
  returns (bind (MainGo.downloadPDF L E finalURL outputDir)
                (fun first =>
                   bind (MainGo.downloadPDF L E finalURL outputDir)
                        (fun second => ret (first, second)))) w
    (fun saved w' =>
       saved = (false, false)
       ∧ fs w' !! MainGo.target_path L finalURL outputDir
         = Some (os.File (Body resp))
       ∧ count is_get (trace w') = (count is_get (trace w) + 1)%nat).
Proof.
  intros Hdir Hne Habsent Hget Hstatus Hbody Hcreate Hwrite.
  eapply returns_then;
    [exact (downloadPDF_stream_run L E finalURL outputDir w resp
              Hdir Hne Habsent Hget Hstatus Hcreate Hwrite)|].
  intros first w1 (-> & Hfs & Hgets).
  assert (Hfile : fs w1 !! MainGo.target_path L finalURL outputDir
                  = Some (os.File (Body resp))).
  { rewrite Hfs. apply lookup_insert_eq. }
  eapply returns_then;
    [exact (downloadPDF_skip_run L E finalURL outputDir w1 _ Hfile)|].
  intros second w2 (-> & Hfile2 & Hgets2). apply returns_ret.
  split; [|split; [exact Hfile2 | now rewrite Hgets2, Hgets]].
  case_bool_decide; congruence.
Qed.

Lemma downloadPDF_partial_file_blocks_retry_witness :
  returns (bind (MainGo.downloadPDF Examples.lib
                   (Examples.serving Examples.broken_pdf) Examples.plain_url
                   "PDFs/")
                (fun first =>
                   bind (MainGo.downloadPDF Examples.lib
                           (Examples.serving Examples.broken_pdf)
                           Examples.plain_url "PDFs/")
                        (fun second => ret (first, second))))
    Examples.empty_world
    (fun saved w' =>
       saved = (false, false)
       ∧ fs w' !! "PDFs/my_sheet.pdf" = Some (os.File "%PDF-1.4")
       ∧ count is_get (trace w') = 1%nat).
Proof.
  apply (downloadPDF_partial_file_blocks_retry Examples.lib
           (Examples.serving Examples.broken_pdf) Examples.plain_url "PDFs/"
           Examples.empty_world Examples.broken_pdf "unexpected EOF").
  - right. split; [apply lookup_empty | reflexivity].
  - vm_compute. discriminate.
  - apply lookup_empty.
  - reflexivity.
  - reflexivity.
  - reflexivity.
  - reflexivity.
  - reflexivity.
Defined.

(** X8.  A download that goes through in the sequential buffering copy: for a
    200 response whose content type mentions [application/pdf] and
    whose body is not empty, the file at [filePath] is created, or
    replaced when a regular file is there, and holds the body. *)
Theorem buffered_downloadPDF_saves_body (E : Env) (finalURL filePath : string)
  (w : World) (resp : Response) :
  http_get E finalURL = Ok resp →
  StatusCode resp = 200%Z →
  strings.Contains (ContentType resp) "application/pdf" = true →
  BodyErr resp = None →
  Body resp ≠ "" →
  fs w !! filePath ≠ Some os.Dir →
  create_fault E filePath = None →
  write_fault E filePath = None →
  returns (Buffered.downloadPDF_sequential E finalURL filePath) w
    (fun saved w' =>
       saved = true ∧ fs w' = <[filePath := os.File (Body resp)]> (fs w)).
Proof.
  intros Hget Hstatus Hct Hbody Hne Hdir Hcreate Hwrite.
  unfold Buffered.downloadPDF_sequential, Buffered.download. run.
  all: try rewrite (write_outcome_no_fault E _ _ Hwrite) in *.
  all: world; same_response; try congruence.
  all: try (rewrite Hstatus in *; discriminate).
  all: try (rewrite Hct in *; discriminate).
  all: try (match goal with
            | H : (String.length ?b =? 0)%nat = true |- _ =>
                apply Nat.eqb_eq in H; destruct b; [congruence | discriminate]
            end).
  all: simplify_eq.
  all: rewrite ?lookup_insert_eq, ?insert_insert_eq.
  all: split; reflexivity.
Qed.

Lemma buffered_downloadPDF_saves_body_witness :
  returns (Buffered.downloadPDF_sequential (Examples.serving MoreExamples.pdf)
             Examples.plain_url "PDFs/my_sheet.pdf")
    (Examples.world_with "PDFs/my_sheet.pdf" "stale")
    (fun saved w' =>
       saved = true
       ∧ fs w' !! "PDFs/my_sheet.pdf" = Some (os.File "%PDF-1.4 sheet")).
Proof.
  eapply returns_weaken.
  - apply (buffered_downloadPDF_saves_body (Examples.serving MoreExamples.pdf)
             Examples.plain_url "PDFs/my_sheet.pdf"
             (Examples.world_with "PDFs/my_sheet.pdf" "stale") MoreExamples.pdf).
    + reflexivity.
    + reflexivity.
    + reflexivity.
    + reflexivity.
    + discriminate.
    + vm_compute. discriminate.
    + reflexivity.
    + reflexivity.
  - intros saved w' (-> & Hfs). split; [reflexivity|].
    rewrite Hfs. apply lookup_insert_eq.
Defined.

Lemma panics_here {A} w (Q : World → Prop) : Q w → panics (@runtime_panic A) w Q.
Proof. intros H. exists w. split; [reflexivity | exact H]. Qed.

Lemma panics_bind {A B} (m : M A) (k : A → M B) w (Q : World → Prop) :
  returns m w (fun a w1 => panics (k a) w1 Q) → panics (bind m k) w Q.
Proof.
  intros (a & w1 & Hm & w2 & Hk & HQ). exists w2.
  split; [|exact HQ]. unfold bind. now rewrite Hm.
Qed.

Lemma panics_then {A B} (m : M A) (k : A → M B) w (Q : World → Prop) :
  panics m w Q → panics (bind m k) w Q.
Proof.
  intros (w' & Hm & HQ). exists w'. split; [|exact HQ].
  unfold bind. now rewrite Hm.
Qed.

Lemma panics_weaken {A} (m : M A) w (Q Q' : World → Prop) :
  panics m w Q → (∀ w', Q w' → Q' w') → panics m w Q'.
Proof. intros (w' & Hm & HQ) Himp. exists w'. split; auto. Qed.

Ltac panic_step :=
  lazymatch goal with
  | |- panics (@runtime_panic _) _ _ => apply panics_here
  | |- panics (bind _ _) _ _ => apply panics_bind
  | |- panics (match ?x with _ => _ end) _ _ => destruct x eqn:?
  end.

Ltac run_panic := repeat first [run_step | panic_step].

Ltac unfold_lenient :=
  unfold Lenient.appendAndWriteToFile, Lenient.getDataFromURL,
    Lenient.fetch_body, Lenient.createDirectory, Lenient.open_append,
    Lenient.File_WriteString, Lenient.File_Close, Lenient.log_if_error,
    Lenient.os_Mkdir, Lenient.directoryExists.

(** X9.  The later [appendAndWriteToFile] never ends the process.  When
    the file cannot be opened it logs the error, then tries to write to
    and close the file it does not have, logging [invalid argument]
    twice, and the disk is as before; without faults it appends the
    content and a newline like the first version. *)
Theorem lenient_appendAndWriteToFile_carries_on (E : Env)
  (path content : string) (w : World) :
  returns (Lenient.appendAndWriteToFile E path content) w (fun _ w' =>
    (open_fault E path ≠ None ∨ fs w !! path = Some os.Dir →
     fs w' = fs w
     ∧ count is_log (trace w') = (count is_log (trace w) + 3)%nat)
    ∧ (∀ old, no_file_faults E path → holds w path old →
              fs w' = <[path := os.File (old +:+ content +:+ newline)]> (fs w)
              ∧ count is_log (trace w') = count is_log (trace w))).
Proof.
  unfold_lenient. run.
  all: world; try discriminate.
  all: repeat match goal with
              | H : Some ?a = Some ?b |- _ =>
                  first [is_var b; injection H as <- | is_var a; injection H as ->]
              end.
  all: split;
    [ intros [Ho|Hd]; try congruence
    | intros old (Ho & Hw & Hc) Hold;
      try rewrite (write_outcome_no_fault E path _ Hw) in *;
      destruct Hold as [Hold|[Hold ->]]; try congruence ].
  all: repeat match goal with
              | H : (_, _) = (_, _) |- _ => injection H as <- <-
              end; try congruence.
  all: rewrite ?lookup_insert_eq, ?insert_insert_eq.
  all: try (rewrite Hold).
  all: split; [reflexivity || congruence | count_events].
Qed.

Lemma lenient_fetch_panics (E : Env) (uri err : string) (w : World) :
  http_get E uri = Err err →
  panics (Lenient.getDataFromURL E uri) w (fun w' =>
    fs w' = fs w
    ∧ trace w' = EvLog err :: EvGet uri
                 :: EvLog ("Scraping " +:+ uri) :: trace w).
Proof.
  intros Hget. unfold_lenient. run_panic.
  all: world; try discriminate; same_response.
  injection Hget as ->. split; reflexivity.
Qed.

Lemma lenient_fetch_returns (E : Env) (uri : string) (resp : Response)
  (w : World) :
  http_get E uri = Ok resp →
  returns (Lenient.getDataFromURL E uri) w (fun body w' =>
    body = Body resp ∧ fs w' = fs w
    ∧ count is_get (trace w') = (count is_get (trace w) + 1)%nat).
Proof.
  intros Hget. unfold_lenient. run.
  all: world; same_response.
  all: split_post; try reflexivity; count_events.
Qed.

(** X10.  The later [getDataFromURL] logs a failed request and goes on to
    read [response.Body] of the response it did not get: the process
    ends in a panic.  For an answered request it always returns what
    arrived of the body, whatever the status, also when the body broke
    off or could not be closed. *)
Theorem lenient_getDataFromURL_outcome (E : Env) (uri : string) (w : World) :
  (∀ err, http_get E uri = Err err →
          panics (Lenient.getDataFromURL E uri) w (fun w' =>
            fs w' = fs w
            ∧ trace w' = EvLog err :: EvGet uri
                         :: EvLog ("Scraping " +:+ uri) :: trace w))
  ∧ (∀ resp, http_get E uri = Ok resp →
             returns (Lenient.getDataFromURL E uri) w (fun body w' =>
               body = Body resp ∧ fs w' = fs w
               ∧ count is_get (trace w') = (count is_get (trace w) + 1)%nat)).
Proof.
  split.
  - intros err Hget. now apply lenient_fetch_panics.
  - intros resp Hget. now apply lenient_fetch_returns.
Qed.

Lemma lenient_getDataFromURL_outcome_witness :
  panics (Lenient.getDataFromURL MoreExamples.offline (page_url 0))
    Examples.empty_world
    (fun w' => fs w' = fs Examples.empty_world ∧ count is_get (trace w') = 1%nat)
  ∧ returns (Lenient.getDataFromURL (Examples.serving Examples.broken_pdf)
               (page_url 0)) Examples.empty_world
      (fun body w' => body = "%PDF-1.4").
Proof.
  split.
  - eapply panics_weaken.
    + apply (proj1 (lenient_getDataFromURL_outcome MoreExamples.offline
                      (page_url 0) Examples.empty_world)
               "dial tcp: network is unreachable").
      reflexivity.
    + intros w' (Hfs & Htrace). split; [exact Hfs|]. rewrite Htrace. reflexivity.
  - eapply returns_weaken.
    + apply (proj2 (lenient_getDataFromURL_outcome
                      (Examples.serving Examples.broken_pdf)
                      (page_url 0) Examples.empty_world) Examples.broken_pdf).
      reflexivity.
    + intros body w' (Hbody & _). exact Hbody.
Defined.

(** X11.  [getDataFromURL] of src/main.go returns the body of whatever
    answer it gets, without looking at the status; when the request
    fails, the body breaks off or cannot be closed, it ends the
    process.  Either way it sends one request and leaves the disk
    alone. *)
Theorem strict_getDataFromURL_outcome (E : Env) (uri : string) (w : World) :
  (∀ resp, fetched E uri resp →
           returns (MainGo.getDataFromURL E uri) w (fun body w' =>
             body = Body resp ∧ fs w' = fs w
             ∧ count is_get (trace w') = (count is_get (trace w) + 1)%nat))
  ∧ (fetch_fails E uri →
     exits (MainGo.getDataFromURL E uri) w (fun w' =>
       fs w' = fs w
       ∧ count is_get (trace w') = (count is_get (trace w) + 1)%nat)).
Proof.
  split.
  - intros resp Hresp. now apply getDataFromURL_run.
  - intros Hfail. now apply getDataFromURL_exit.
Qed.

Lemma strict_getDataFromURL_outcome_witness :
  returns (MainGo.getDataFromURL (Examples.serving Examples.not_found)
             (page_url 0)) Examples.empty_world
    (fun body w' => body = "gone")
  ∧ exits (MainGo.getDataFromURL (Examples.serving Examples.broken_pdf)
             (page_url 0)) Examples.empty_world
      (fun w' => fs w' = fs Examples.empty_world).
Proof.
  split.
  - eapply returns_weaken.
    + apply (proj1 (strict_getDataFromURL_outcome (Examples.serving Examples.not_found)
                      (page_url 0) Examples.empty_world) Examples.not_found).
      repeat split.
    + intros body w' (Hbody & _). exact Hbody.
  - eapply exits_weaken.
    + apply (proj2 (strict_getDataFromURL_outcome (Examples.serving Examples.broken_pdf)
                      (page_url 0) Examples.empty_world)).
      right. exists Examples.broken_pdf. split; [reflexivity|].
      left. discriminate.
    + intros w' (Hfs & _). exact Hfs.
Defined.

(** X12.  [createDirectory] then [directoryExists].  The directory is
    there afterwards exactly when it was there before or nothing was at
    the path and the system let it be made; a regular file at the path
    is never replaced, and a failure is logged without ending the
    process. *)
Theorem createDirectory_then_directoryExists (E : Env) (path : string)
  (w : World) :
  returns (bind (Lenient.createDirectory E path)
                (fun _ => Lenient.directoryExists path)) w
    (fun isDir w' =>
       (isDir = true ↔ fs w !! path = Some os.Dir
                       ∨ (fs w !! path = None ∧ mkdir_fault E path = None))
       ∧ same_files w w'
       ∧ (isDir = false →
          (count is_log (trace w) < count is_log (trace w'))%nat)).
Proof.
  unfold_lenient. run.
  all: world; rewrite ?lookup_insert_eq in *; try congruence.
  all: split_post.
  all: try (split; [discriminate|]; intros [H|[H1 H2]]; congruence).
  all: try (split; [intros _|reflexivity]; tauto).
  all: try first [ now apply same_files_refl | now apply same_files_mkdir ].
  all: try (intros; discriminate).
  all: try (split; [intros _; left; congruence | reflexivity]).
  all: intros _; count_events.
Qed.

Ltac unfold_link :=
  unfold Lenient.handle_link, Buffered.downloadPDF_sequential,
    Buffered.download.

(** X13.  The link loop of the sequential copy sends at most one request
    per link, and it sends one (or touches the disk) only for a link
    whose full URL is valid, whose file is not on disk yet and whose
    file name has at least two bytes. *)
Theorem handle_link_downloads_only_new_files (L : Lib) (E : Env)
  (parse : string → result url.URL) (url : string) (w : World) :
  let filename := value (sanitizeFileNameFromURL L (Lenient.full_url url)) in
  let filePath := filepath_Join L Lenient.outputDir filename in
  returns (Lenient.handle_link L E parse url) w (fun _ w' =>
    (count is_get (trace w') ≤ count is_get (trace w) + 1)%nat
    ∧ (count is_get (trace w') ≠ count is_get (trace w) ∨ fs w' ≠ fs w →
       Lenient.isUrlValid parse (Lenient.full_url url) = true
       ∧ (∀ c, fs w !! filePath ≠ Some (os.File c))
       ∧ (2 ≤ String.length filename)%nat)).
Proof.
  cbv zeta. unfold_link. run.
  all: world.
  all: split; [count_events|].
  all: try solve [intros [H|H]; exfalso; apply H; [count_events | reflexivity]].
  all: intros _; split_post.
  all: try (match goal with
            | H : negb _ = false |- _ = true => now apply negb_false_iff in H
            end).
  all: try (intros c; congruence).
  all: match goal with
       | H : (_ <? 2)%nat = false |- _ => apply Nat.ltb_ge in H; exact H
       end.
Qed.

(** X14.  A link that already starts with the site's domain is never
    downloaded by the later copies: [fullURL] stays empty for it, the
    empty string is no valid URL, and the link is logged and skipped. *)
Theorem handle_link_skips_absolute_links (L : Lib) (E : Env)
  (parse : string → result url.URL) (url err : string) (w : World) :
  parse "" = Err err →
  strings.HasPrefix url domainURL = true →
  returns (Lenient.handle_link L E parse url) w (fun _ w' =>
    fs w' = fs w
    ∧ trace w' = EvLog "Failed to parse URL: " :: trace w).
Proof.
  intros Hparse Hprefix.
  unfold Lenient.handle_link, Lenient.full_url, Lenient.isUrlValid.
  rewrite Hprefix. simpl negb. cbv iota. rewrite Hparse. cbv zeta. simpl negb.
  cbv iota. run. split; reflexivity.
Qed.

Lemma handle_link_skips_absolute_links_witness :
  returns (Lenient.handle_link Examples.lib (Examples.serving MoreExamples.pdf)
             MoreExamples.parse_request_uri
             "https://www.avient.com/sds/sheet.pdf") Examples.empty_world
    (fun _ w' =>
       fs w' = fs Examples.empty_world
       ∧ trace w' = [EvLog "Failed to parse URL: "]).
Proof.
  apply (handle_link_skips_absolute_links Examples.lib
           (Examples.serving MoreExamples.pdf) MoreExamples.parse_request_uri
           "https://www.avient.com/sds/sheet.pdf" "empty url"
           Examples.empty_world); reflexivity.
Defined.

Lemma handle_link_returns (L : Lib) (E : Env) (parse : string → result url.URL)
  (url : string) (w : World) :
  returns (Lenient.handle_link L E parse url) w (fun _ _ => True).
Proof. unfold_link. run. all: exact I. Qed.

Lemma for_each_link_returns (L : Lib) (E : Env)
  (parse : string → result url.URL) (links : list string) :
  ∀ w, returns (for_each links (Lenient.handle_link L E parse)) w
               (fun _ _ => True).
Proof.
  induction links as [|url links IH]; intros w; simpl.
  - now apply returns_ret.
  - eapply returns_then; [apply handle_link_returns|].
    intros _ w1 _. apply IH.
Qed.

Lemma handle_page_returns (L : Lib) (E : Env) (parse : string → result url.URL)
  (i : nat) (resp : Response) (w : World) :
  http_get E (page_url i) = Ok resp →
  returns (Lenient.handle_page L E parse i) w (fun _ _ => True).
Proof.
  intros Hget. unfold Lenient.handle_page.
  eapply returns_then; [exact (lenient_fetch_returns E _ resp w Hget)|].
  intros body w1 _. apply returns_bind, returns_run_logged.
  apply for_each_link_returns.
Qed.

Lemma handle_page_panics (L : Lib) (E : Env) (parse : string → result url.URL)
  (i : nat) (err : string) (w : World) :
  http_get E (page_url i) = Err err →
  panics (Lenient.handle_page L E parse i) w (stopped_at (page_url i)).
Proof.
  intros Hget. unfold Lenient.handle_page. apply panics_then.
  eapply panics_weaken; [exact (lenient_fetch_panics E _ err w Hget)|].
  intros w' (_ & Htrace). exists err. eexists. exact Htrace.
Qed.

Lemma page_loop_returns (L : Lib) (E : Env) (parse : string → result url.URL)
  (n : nat) :
  ∀ i w,
    (∀ j, (i ≤ j < i + n)%nat → ∃ resp, http_get E (page_url j) = Ok resp) →
    returns (for_count n i (Lenient.handle_page L E parse)) w (fun _ _ => True).
Proof.
  induction n as [|n IH]; intros i w Hpages; simpl.
  - now apply returns_ret.
  - destruct (Hpages i ltac:(lia)) as [resp Hresp].
    eapply returns_then; [exact (handle_page_returns L E parse i resp w Hresp)|].
    intros _ w1 _. apply IH. intros j Hj. apply Hpages. lia.
Qed.

Lemma page_loop_panics (L : Lib) (E : Env) (parse : string → result url.URL)
  (k : nat) (err : string) :
  http_get E (page_url k) = Err err →
  ∀ n i w,
    (i ≤ k < i + n)%nat →
    (∀ j, (i ≤ j < k)%nat → ∃ resp, http_get E (page_url j) = Ok resp) →
    panics (for_count n i (Lenient.handle_page L E parse)) w
           (stopped_at (page_url k)).
Proof.
  intros Hfail. induction n as [|n IH]; intros i w Hk Hpages; [lia|]. simpl.
  destruct (decide (k = i)) as [->|Hne].
  - apply panics_then. now apply handle_page_panics with err.
  - destruct (Hpages i ltac:(lia)) as [resp Hresp].
    apply panics_bind.
    eapply returns_weaken;
      [exact (handle_page_returns L E parse i resp w Hresp)|].
    intros _ w1 _. apply IH; [lia|]. intros j Hj. apply Hpages. lia.
Qed.

Lemma sequential_pages : (S 7243 - 7200 = 44)%nat ∧ (7200 + 44 = 7244)%nat.
Proof. split; vm_compute; reflexivity. Qed.

(** X15.  The sequential [main] never ends the process through
    [log.Fatalln].  With every listing page answered it runs to its
    end, whatever happens to the downloads; the first listing page whose
    request fails ends the run in a panic right after that request. *)
Theorem sequential_main_outcome (L : Lib) (E : Env)
  (parse : string → result url.URL) (w : World) :
  ((∀ j, (7200 ≤ j ≤ 7243)%nat → ∃ resp, http_get E (page_url j) = Ok resp) →
   returns (Lenient.main L E parse) w (fun _ _ => True))
  ∧ (∀ k err,
        (7200 ≤ k ≤ 7243)%nat →
        http_get E (page_url k) = Err err →
        (∀ j, (7200 ≤ j < k)%nat → ∃ resp, http_get E (page_url j) = Ok resp) →
        panics (Lenient.main L E parse) w (stopped_at (page_url k))).
Proof.
  destruct sequential_pages as [Hcount Hlast].
  split.
  - intros Hpages. unfold Lenient.main, for_range. rewrite Hcount.
    apply returns_bind. unfold_lenient. run.
    all: apply page_loop_returns; intros j Hj; apply Hpages; lia.
  - intros k err Hk Hfail Hpages. unfold Lenient.main, for_range.
    rewrite Hcount. apply panics_bind. unfold_lenient. run.
    all: apply panics_bind; run.
    all: apply (page_loop_panics L E parse k err Hfail); [lia | exact Hpages].
Qed.

Lemma sequential_main_outcome_witness :
  returns (Lenient.main Examples.lib (Examples.serving Examples.not_found)
             MoreExamples.parse_request_uri) Examples.empty_world
    (fun _ _ => True)
  ∧ panics (Lenient.main Examples.lib MoreExamples.offline
              MoreExamples.parse_request_uri) Examples.empty_world
      (stopped_at (page_url 7200)).
Proof.
  split.
  - apply (proj1 (sequential_main_outcome Examples.lib
                    (Examples.serving Examples.not_found)
                    MoreExamples.parse_request_uri Examples.empty_world)).
    intros j _. exists Examples.not_found. reflexivity.
  - apply (proj2 (sequential_main_outcome Examples.lib MoreExamples.offline
                    MoreExamples.parse_request_uri Examples.empty_world)
             7200%nat "dial tcp: network is unreachable").
    + split; [apply Nat.le_refl|]. apply Nat.leb_le. vm_compute. reflexivity.
    + reflexivity.
    + intros j [Hlo Hhi]. exfalso. apply (Nat.lt_irrefl j).
      eapply Nat.lt_le_trans; [exact Hhi | exact Hlo].
Defined.

(** X16.  [getDataFromURL] of the content-type checking copy stores the
    page it fetched at the end of the listing file and then signals
    the wait group; when the page cannot be fetched it ends the process
    instead, with the disk as it was and the wait group not
    signalled. *)
Theorem checked_getDataFromURL_outcome (E : Env) (uri localLocationo : string)
  (w : World) :
  (∀ resp old,
      fetched E uri resp → no_file_faults E localLocationo →
      holds w localLocationo old →
      returns (CheckedListing.getDataFromURL E uri localLocationo) w
        (fun _ w' =>
           fs w' = <[localLocationo :=
                       os.File (old +:+ Body resp +:+ newline)]> (fs w)
           ∧ count is_done (trace w') = (count is_done (trace w) + 1)%nat))
  ∧ (fetch_fails E uri →
     exits (CheckedListing.getDataFromURL E uri localLocationo) w (fun w' =>
       fs w' = fs w ∧ count is_done (trace w') = count is_done (trace w))).
Proof.
  split.
  - intros resp old (Hget & Hbody & Hclose) (Ho & Hw & Hc) Hold.
    unfold CheckedListing.getDataFromURL, MainGo.appendAndWriteToFile. run.
    all: try rewrite (write_outcome_no_fault E _ _ Hw) in *.
    all: world; same_response; try congruence.
    all: destruct Hold as [Hold|[Hold ->]]; try congruence.
    all: repeat match goal with
                | H : (_, _) = (_, _) |- _ => injection H as <- <-
                end; try congruence.
    all: rewrite ?lookup_insert_eq, ?insert_insert_eq.
    all: try rewrite Hold.
    all: split; [congruence || reflexivity | count_events].
  - intros Hfail. unfold CheckedListing.getDataFromURL. run_exit.
    all: world.
    all: try (split; [reflexivity | count_events]).
    all: exfalso; destruct Hfail as [(err & H)|(resp & H & [Hb|Hc])];
      same_response; congruence.
Qed.

Lemma checked_getDataFromURL_outcome_witness :
  returns (CheckedListing.getDataFromURL (Examples.serving Examples.html_page)
             (page_url 0) "avient.com.html") Examples.empty_world
    (fun _ w' =>
       fs w' !! "avient.com.html"
       = Some (os.File ("<html>not a pdf</html>" +:+ newline)))
  ∧ exits (CheckedListing.getDataFromURL MoreExamples.offline
             (page_url 0) "avient.com.html") Examples.empty_world
      (fun w' => fs w' = fs Examples.empty_world).
Proof.
  split.
  - eapply returns_weaken.
    + apply (proj1 (checked_getDataFromURL_outcome
                      (Examples.serving Examples.html_page) (page_url 0)
                      "avient.com.html" Examples.empty_world)
               Examples.html_page "").
      * repeat split.
      * repeat split.
      * right. split; [apply lookup_empty | reflexivity].
    + intros _ w' (Hfs & _). rewrite Hfs. apply lookup_insert_eq.
  - eapply exits_weaken.
    + apply (proj2 (checked_getDataFromURL_outcome MoreExamples.offline
                      (page_url 0) "avient.com.html" Examples.empty_world)).
      left. eexists. reflexivity.
    + intros w' (Hfs & _). exact Hfs.
Defined.

(** X17.  [removeDuplicatesFromSlice] returns its input unchanged exactly
    when the input has no duplicates, and never returns a longer
    list. *)
Theorem removeDuplicatesFromSlice_fixed_point (slice : list string) :
  (removeDuplicatesFromSlice slice = slice ↔ NoDup slice)
  ∧ (length (removeDuplicatesFromSlice slice) ≤ length slice)%nat.
Proof.
  rewrite removeDuplicatesFromSlice_keep_unseen. split.
  - split.
    + intros Heq. rewrite <- Heq. apply NoDup_keep_unseen.
    + intros Hnd. apply keep_unseen_NoDup; [exact Hnd|].
      intros x _ Hn. inversion Hn.
  - generalize (@nil string).
    induction slice as [|a l IH]; intros seen; simpl; [lia|].
    destruct (decide (a ∈ seen)); simpl;
      [specialize (IH seen) | specialize (IH (a :: seen))]; lia.
Qed.

(** X18.  Two URLs whose sanitised names coincide share one file: once
    the first is saved, [downloadPDF] of src/main.go sends no request
    for the second and the file keeps the first document. *)
Theorem downloadPDF_name_collision (L : Lib) (E : Env)
  (firstURL secondURL outputDir : string) (w : World) (resp : Response) :
  MainGo.target_path L secondURL outputDir
  = MainGo.target_path L firstURL outputDir →
  directory_ready E w outputDir →
  MainGo.target_path L firstURL outputDir ≠ outputDir →
  fs w !! MainGo.target_path L firstURL outputDir = None →
  http_get E firstURL = Ok resp →
  StatusCode resp = 200%Z →
  BodyErr resp = None →
  create_fault E (MainGo.target_path L firstURL outputDir) = None →
  write_fault E (MainGo.target_path L firstURL outputDir) = None →
  returns (bind (MainGo.downloadPDF L E firstURL outputDir)
                (fun first =>
                   bind (MainGo.downloadPDF L E secondURL outputDir)
                        (fun second => ret (first, second)))) w
    (fun saved w' =>
       saved = (true, false)
       ∧ fs w' !! MainGo.target_path L secondURL outputDir
         = Some (os.File (Body resp))
       ∧ count is_get (trace w') = (count is_get (trace w) + 1)%nat).
Proof.
  intros Hsame Hdir Hne Habsent Hget Hstatus Hbody Hcreate Hwrite.
  eapply returns_then;
    [exact (downloadPDF_stream_run L E firstURL outputDir w resp
              Hdir Hne Habsent Hget Hstatus Hcreate Hwrite)|].
  intros first w1 (-> & Hfs & Hgets).
  assert (Hfile : fs w1 !! MainGo.target_path L secondURL outputDir
                  = Some (os.File (Body resp))).
  { rewrite Hsame, Hfs. apply lookup_insert_eq. }
  eapply returns_then;
    [exact (downloadPDF_skip_run L E secondURL outputDir w1 _ Hfile)|].
  intros second w2 (-> & Hfile2 & Hgets2). apply returns_ret.
  split; [|split; [exact Hfile2 | now rewrite Hgets2, Hgets]].
  case_bool_decide; congruence.
Qed.

Lemma downloadPDF_name_collision_witness :
  returns (bind (MainGo.downloadPDF MoreExamples.sheets_lib
                   MoreExamples.sheets_server MoreExamples.english_sheet "PDFs/")
                (fun first =>
                   bind (MainGo.downloadPDF MoreExamples.sheets_lib
                           MoreExamples.sheets_server
                           MoreExamples.german_sheet "PDFs/")
                        (fun second => ret (first, second))))
    Examples.empty_world
    (fun saved w' =>
       saved = (true, false)
       ∧ fs w' !! "PDFs/sheet.pdf" = Some (os.File "%PDF-1.4 sheet")
       ∧ count is_get (trace w') = 1%nat).
Proof.
  apply (downloadPDF_name_collision MoreExamples.sheets_lib
           MoreExamples.sheets_server MoreExamples.english_sheet
           MoreExamples.german_sheet "PDFs/" Examples.empty_world
           MoreExamples.pdf).
  - reflexivity.
  - right. split; [apply lookup_empty | reflexivity].
  - vm_compute. discriminate.
  - apply lookup_empty.
  - reflexivity.
  - reflexivity.
  - reflexivity.
  - reflexivity.
  - reflexivity.
Defined.
